(** * RunTime_Tracker: the ingestion and query routes of [src/routes/apiRoutes.js]

    A shallow embedding of the Express handlers of [apiRoutes.js] and of the
    configuration read in [src/index.js], together with the recorder and the
    query engine they drive.  [services/StatsRecorder] and
    [services/StatsQuery] are required by [index.js] but are not part of the
    sources at hand; the parts of them that the properties below depend on
    are modelled from the specification and marked as such. *)

From Stdlib Require Import ZArith String Ascii List Bool Lia.
From stdpp Require Import base decidable countable gmap strings list option.

Local Open Scope string_scope.
Local Open Scope list_scope.
Local Open Scope Z_scope.

(** ** JavaScript values and the coercions the routes rely on *)

Module Js.

(** The primitive JSON values a request body or a stored entry can hold.
    Numbers are the integer-valued ones; objects and arrays are left out. *)
Inductive JsVal : Type :=
| JUndefined
| JNull
| JBool (b : bool)
| JNum (n : Z)
| JStr (s : string).

#[export] Instance JsVal_eq_dec : EqDecision JsVal.
Proof. solve_decision. Defined.

Definition JsVal_enc (v : JsVal) : unit + (unit + (bool + (Z + string))) :=
  match v with
  | JUndefined => inl tt
  | JNull => inr (inl tt)
  | JBool b => inr (inr (inl b))
  | JNum n => inr (inr (inr (inl n)))
  | JStr s => inr (inr (inr (inr s)))
  end.

Definition JsVal_dec (x : unit + (unit + (bool + (Z + string)))) : JsVal :=
  match x with
  | inl _ => JUndefined
  | inr (inl _) => JNull
  | inr (inr (inl b)) => JBool b
  | inr (inr (inr (inl n))) => JNum n
  | inr (inr (inr (inr s))) => JStr s
  end.

#[export] Instance JsVal_countable : Countable JsVal.
Proof.
  refine (inj_countable' JsVal_enc JsVal_dec _).
  intros []; reflexivity.
Defined.

(** [!v] is [negb (truthy v)]: undefined, null, false, 0 and the empty
    string are the falsy values of this fragment. *)
Definition truthy (v : JsVal) : bool :=
  match v with
  | JUndefined | JNull => false
  | JBool b => b
  | JNum n => negb (n =? 0)
  | JStr s => negb (String.eqb s "")
  end.

(** [v !== undefined] *)
Definition is_defined (v : JsVal) : bool :=
  match v with JUndefined => false | _ => true end.

(** [v !== false] *)
Definition not_false (v : JsVal) : bool :=
  match v with JBool false => false | _ => true end.

(** [v === true] *)
Definition is_true (v : JsVal) : bool :=
  match v with JBool true => true | _ => false end.

(** [v === s] for a string constant [s] *)
Definition strict_eq_str (v : JsVal) (s : string) : bool :=
  match v with JStr t => String.eqb t s | _ => false end.

(** What the host engine computes and the routes only call: the numeric
    value of a string ([None] for NaN) and [Date.parse] ([None] for an
    invalid date, otherwise milliseconds since the epoch). *)
Class Host := {
  string_to_number : string -> option Z;
  date_parse : string -> option Z
}.

(** ToNumber, as used by the relational operators; [None] is NaN. *)
Definition to_number `{Host} (v : JsVal) : option Z :=
  match v with
  | JUndefined => None
  | JNull => Some 0
  | JBool b => Some (if b then 1 else 0)
  | JNum n => Some n
  | JStr s => string_to_number s
  end.

(** [v > k] and [v <= k] against a numeric constant: false on NaN. *)
Definition gt_num `{Host} (v : JsVal) (k : Z) : bool :=
  match to_number v with Some n => k <? n | None => false end.

Definition le_num `{Host} (v : JsVal) (k : Z) : bool :=
  match to_number v with Some n => n <=? k | None => false end.

(** *** Texts

    A text is kept as the bytes of its UTF-8 form, so a character outside
    ASCII takes two bytes or more. *)

Definition byte_of (c : ascii) : nat := nat_of_ascii c.

(** The white space of the language (WhiteSpace and LineTerminator) by the
    length of its UTF-8 form.  One byte: TAB, LF, VT, FF, CR and the space. *)
Definition space1 (c : ascii) : bool :=
  ((9 <=? byte_of c) && (byte_of c <=? 13))%nat || (byte_of c =? 32)%nat.

(** Two bytes: U+00A0, the no-break space. *)
Definition space2 (c1 c2 : ascii) : bool :=
  ((byte_of c1 =? 194) && (byte_of c2 =? 160))%nat.

(** Three bytes: U+1680, U+2000 to U+200A, U+2028, U+2029, U+202F, U+205F,
    U+3000 and U+FEFF. *)
Definition space3 (c1 c2 c3 : ascii) : bool :=
  (((byte_of c1 =? 225) && (byte_of c2 =? 154) && (byte_of c3 =? 128))
   || ((byte_of c1 =? 226) && (byte_of c2 =? 128)
       && (((128 <=? byte_of c3) && (byte_of c3 <=? 138))
           || (byte_of c3 =? 168) || (byte_of c3 =? 169) || (byte_of c3 =? 175)))
   || ((byte_of c1 =? 226) && (byte_of c2 =? 129) && (byte_of c3 =? 159))
   || ((byte_of c1 =? 227) && (byte_of c2 =? 128) && (byte_of c3 =? 128))
   || ((byte_of c1 =? 239) && (byte_of c2 =? 187) && (byte_of c3 =? 191)))%nat.

(** The text after one leading white-space character, if it starts with
    one. *)
Definition strip_space (s : string) : option string :=
  match s with
  | String c1 r1 =>
      if space1 c1 then Some r1
      else
        match r1 with
        | String c2 r2 =>
            if space2 c1 c2 then Some r2
            else
              match r2 with
              | String c3 r3 => if space3 c1 c2 c3 then Some r3 else None
              | EmptyString => None
              end
        | EmptyString => None
        end
  | EmptyString => None
  end.

(** The first byte of a white-space character. *)
Definition space_lead (c : ascii) : bool :=
  (space1 c || (byte_of c =? 194) || (byte_of c =? 225) || (byte_of c =? 226)
   || (byte_of c =? 227) || (byte_of c =? 239))%nat.

(** What a text of white space starts with, when it is not empty. *)
Definition starts_space (w : string) : Prop :=
  match w with
  | String c _ => space_lead c = true
  | EmptyString => True
  end.

(** [toLowerCase], for the letters of ASCII.  The only use made of it is to
    compare the result with the words "true", "1", "yes" and "on", and no
    character outside ASCII has a lower-case form made of their letters, so
    the other letters can stay as they are. *)
Definition lower_char (c : ascii) : ascii :=
  let n := nat_of_ascii c in
  if ((65 <=? n) && (n <=? 90))%nat then ascii_of_nat (n + 32) else c.

Fixpoint toLowerCase (s : string) : string :=
  match s with
  | EmptyString => EmptyString
  | String c r => String (lower_char c) (toLowerCase r)
  end.

(** [trimStart]: leading white-space characters are dropped one by one. *)
Fixpoint trimStart (s : string) : string :=
  match s with
  | String c1 r1 =>
      if space1 c1 then trimStart r1
      else
        match r1 with
        | String c2 r2 =>
            if space2 c1 c2 then trimStart r2
            else
              match r2 with
              | String c3 r3 => if space3 c1 c2 c3 then trimStart r3 else s
              | EmptyString => s
              end
        | EmptyString => s
        end
  | EmptyString => EmptyString
  end.

(** Whether a text consists of white space only. *)
Definition all_space (s : string) : bool :=
  match trimStart s with
  | EmptyString => true
  | String _ _ => false
  end.

(** [trimEnd]: the text is cut where what is left is white space only. *)
Fixpoint trimEnd (s : string) : string :=
  match s with
  | EmptyString => EmptyString
  | String c r => if all_space s then EmptyString else String c (trimEnd r)
  end.

Definition trim (s : string) : string := trimEnd (trimStart s).

(** *** [parseInt(string)] with no radix argument *)

Definition digit_val (c : ascii) : option Z :=
  let n := nat_of_ascii c in
  if ((48 <=? n) && (n <=? 57))%nat then Some (Z.of_nat (n - 48))
  else if ((97 <=? n) && (n <=? 102))%nat then Some (Z.of_nat (n - 87))
  else if ((65 <=? n) && (n <=? 70))%nat then Some (Z.of_nat (n - 55))
  else None.

Definition digit_in (radix : Z) (c : ascii) : option Z :=
  match digit_val c with
  | Some d => if d <? radix then Some d else None
  | None => None
  end.

(** The longest prefix of radix digits, folded left to right; [acc] is
    [None] until a first digit has been read. *)
Fixpoint read_digits (radix : Z) (acc : option Z) (s : string) : option Z :=
  match s with
  | EmptyString => acc
  | String c r =>
      match digit_in radix c with
      | Some d => read_digits radix (Some (default 0 acc * radix + d)) r
      | None => acc
      end
  end.

Definition strip_sign (s : string) : Z * string :=
  match s with
  | String "-" r => (-1, r)
  | String "+" r => (1, r)
  | _ => (1, s)
  end.

Definition strip_hex (s : string) : Z * string :=
  match s with
  | String "0" (String "x" r) => (16, r)
  | String "0" (String "X" r) => (16, r)
  | _ => (10, s)
  end.

(** *** Numbers

    A Number that is an integer or an infinity; NaN is kept apart, as
    [None], where it can occur. *)
Inductive Num :=
| Int (n : Z)
| Infinity (negative : bool).

#[export] Instance Num_eq_dec : EqDecision Num.
Proof. solve_decision. Defined.

(** The double nearest to a natural number [m], ties going to the even
    mantissa: a number below 2^53 is itself; a larger one keeps its 53
    leading bits, rounded; from 2^1024 on the result is infinite. *)
Definition round_double (m : Z) : option Z :=
  if m <? 2 ^ 53 then Some m
  else
    let e := Z.log2 m - 52 in
    let q := m / 2 ^ e in
    let r := m mod 2 ^ e in
    let half := 2 ^ (e - 1) in
    let q' := if (half <? r) || ((r =? half) && Z.odd q) then q + 1 else q in
    let v := q' * 2 ^ e in
    if 2 ^ 1024 <=? v then None else Some v.

(** The Number value of a mathematical integer. *)
Definition number_value (z : Z) : Num :=
  match round_double (Z.abs z) with
  | Some m => Int (Z.sgn z * m)
  | None => Infinity (z <? 0)
  end.

(** [parseInt] of a string: [None] is NaN, otherwise the Number value of
    the signed integer read.  The digits are all taken into account, as
    Node's engine does; the language lets an engine neglect decimal digits
    after the twentieth. *)
Definition parseInt_str (s : string) : option Num :=
  let '(sign, s1) := strip_sign (trimStart s) in
  let '(radix, s2) := strip_hex s1 in
  match read_digits radix None s2 with
  | Some n => Some (number_value (sign * n))
  | None => None
  end.


(** A query-string value is absent or a string; [parseInt(undefined)]
    parses the text "undefined".  (A repeated or bracketed parameter, which
    Express hands over as an array or an object, is left out.) *)
Definition parseInt (q : option string) : option Num :=
  match q with
  | Some s => parseInt_str s
  | None => parseInt_str "undefined"
  end.

(** [n || 0] on the result of [parseInt]: NaN and (either) zero are falsy. *)
Definition or_zero (n : option Num) : Num :=
  match n with
  | Some (Int k) => if k =? 0 then Int 0 else Int k
  | Some (Infinity negative) => Infinity negative
  | None => Int 0
  end.

End Js.

Import Js.

(** ** Process configuration ([src/index.js] and [process.env]) *)

Module Config.

(** The environment variables the routes read; a variable is unset
    ([None]) or holds a string. *)
Record Env := {
  env_SECRET : option string;
  env_WEB_SUMMARY : option string
}.

(** [process.env.X] as a JavaScript value *)
Definition env_val (o : option string) : JsVal :=
  match o with
  | Some s => JStr s
  | None => JUndefined
  end.

(** [const SECRET = process.env.SECRET || 'default-secret-key'] *)
Definition SECRET (env : Env) : string :=
  match env_SECRET env with
  | Some s => if String.eqb s "" then "default-secret-key" else s
  | None => "default-secret-key"
  end.

End Config.

Import Config.

(** ** Helpers of [apiRoutes.js] *)

Definition parseBoolean (value : JsVal) (defaultValue : bool) : bool :=
  match value with
  | JUndefined | JNull => defaultValue
  | JBool b => b
  | JStr s =>
      if String.eqb s "" then defaultValue
      else
        let str := trim (toLowerCase s) in
        String.eqb str "true" || String.eqb str "1"
        || String.eqb str "yes" || String.eqb str "on"
  | JNum n => negb (n =? 0)
  end.

Definition isSummaryAllowed (env : Env) (deviceId : string) : bool :=
  if negb (String.eqb deviceId "summary") then true
  else parseBoolean (env_val (env_WEB_SUMMARY env)) false.

(** ** The recorder ([services/StatsRecorder], not among the sources) *)

Module Recorder.

(** Modelled from the spec: the BatteryState of section 3 (level, charging,
    observedAt); the level is kept as the value the caller sent. *)
Record BatteryState := {
  level : JsVal;
  charging : bool;
  observedAt : Z
}.

(** One entry of a device's recent-event buffer, as the routes read it. *)
Record SwitchEntry := {
  appName : JsVal;
  timestamp : Z;
  running : JsVal
}.

(** Modelled from the spec: the UsageSession of section 3,
    (device, appName, startedAt, endedAt | open); a session is open while
    [endedAt] is [None]. *)
Record UsageSession := {
  us_device : JsVal;
  us_app : JsVal;
  startedAt : Z;
  endedAt : option Z
}.

(** Modelled from the spec: the in-memory state [StatsRecorder] owns
    (sections 3 and 4.2): the battery states, the sessions reconstructed so
    far, and the bounded recent-event buffers, which the routes read as the
    map [recentAppSwitches].  The durable per-day counters
    live in the database; only whether a write to them succeeds reaches
    the routes, and that is an input of [recordUsage]. *)
Record State := {
  batteries : gmap JsVal BatteryState;
  sessions : list UsageSession;
  recentAppSwitches : gmap JsVal (list SwitchEntry);
  capacity : nat
}.

Definition init (cap : nat) : State :=
  {| batteries := ∅; sessions := []; recentAppSwitches := ∅; capacity := cap |}.

(** Modelled from the spec: the error kinds of section 7. *)
Inductive Error :=
| InvalidInput (message : string)
| StorageFailure (message : string).

Definition message_of (e : Error) : string :=
  match e with
  | InvalidInput m => m
  | StorageFailure m => m
  end.

Section WithHost.
Context `{Host}.

(** [level > 0 && level <= 100]: the level lies in the interval (0,100]. *)
Definition level_ok (lvl : JsVal) : bool :=
  gt_num lvl 0 && le_num lvl 100.

(** Modelled from the spec: [StatsRecorder.recordBattery] (section 4.1):
    a level outside (0,100] is rejected as InvalidInput and nothing is
    stored; otherwise the device's battery state is overwritten with
    [observedAt = now]. *)
Definition recordBattery (st : State) (device lvl : JsVal) (chg : bool)
    (now : Z) : State * option Error :=
  if level_ok lvl then
    ({| batteries :=
          <[device := {| level := lvl; charging := chg; observedAt := now |}]>
            (batteries st);
        sessions := sessions st;
        recentAppSwitches := recentAppSwitches st;
        capacity := capacity st |}, None)
  else (st, Some (InvalidInput "battery level out of range")).

(** Modelled from the spec: [StatsRecorder.getLatestBatteryInfo]
    (section 4.1, latestBattery): the stored state, or no data. *)
Definition getLatestBatteryInfo (st : State) (device : JsVal)
    : option BatteryState :=
  batteries st !! device.

End WithHost.

(** *** Session reconstruction *)

(** Modelled from the spec: the helpers below spell out the session
    reconstruction of [StatsRecorder.recordUsage] (section 4.2) on the
    session log. *)
Definition is_open (s : UsageSession) : bool :=
  match endedAt s with None => true | Some _ => false end.

Definition open_for (device : JsVal) (s : UsageSession) : bool :=
  is_open s && bool_decide (us_device s = device).

(** Modelled from the spec: the device's open session, if any: the first
    one found in the log. *)
Fixpoint find_open (device : JsVal) (log : list UsageSession)
    : option UsageSession :=
  match log with
  | [] => None
  | s :: rest => if open_for device s then Some s else find_open device rest
  end.

(** Modelled from the spec: how many sessions of the device are open. *)
Fixpoint count_open (device : JsVal) (log : list UsageSession) : nat :=
  match log with
  | [] => O
  | s :: rest =>
      ((if open_for device s then 1 else 0) + count_open device rest)%nat
  end.

(** Modelled from the spec: the invariant of section 3, at most one open
    session per device. *)
Definition single_open (log : list UsageSession) : Prop :=
  forall device, (count_open device log <= 1)%nat.

(** Modelled from the spec: closing the device's open session at [now],
    the one [find_open] finds. *)
Fixpoint close_open (device : JsVal) (now : Z) (log : list UsageSession)
    : list UsageSession :=
  match log with
  | [] => []
  | s :: rest =>
      if open_for device s then
        {| us_device := us_device s; us_app := us_app s;
           startedAt := startedAt s; endedAt := Some now |} :: rest
      else s :: close_open device now rest
  end.

(** Modelled from the spec: opening a session for [app] at [now]. *)
Definition open_new (device app : JsVal) (now : Z) (log : list UsageSession)
    : list UsageSession :=
  log ++ [{| us_device := device; us_app := app;
             startedAt := now; endedAt := None |}].

(** Modelled from the spec: the states of the per-device state machine
    (end of section 4.3). *)
Inductive SessionState :=
| NoSession
| Open (app : JsVal) (started : Z).

(** Modelled from the spec: the transitions of that machine, steps 1 to 5
    of section 4.2, for an event about [app] observed at [now]. *)
Definition machine_step (s : SessionState) (app run : JsVal) (now : Z)
    : SessionState :=
  match s with
  | Open current started =>
      if negb (not_false run) then
        if bool_decide (current = app) then NoSession      (* step 1 *)
        else s                                             (* step 2 *)
      else
        if bool_decide (current = app) then s              (* step 5 *)
        else Open app now                                  (* step 4 *)
  | NoSession =>
      if negb (not_false run) then NoSession               (* step 2 *)
      else Open app now                                    (* step 3 *)
  end.

(** Modelled from the spec: the state of a device, read off the log. *)
Definition session_state (device : JsVal) (log : list UsageSession)
    : SessionState :=
  match find_open device log with
  | None => NoSession
  | Some s => Open (us_app s) (startedAt s)
  end.

(** Modelled from the spec: what one event does to the log (steps 1 to 5
    of section 4.2), and whether it closed a session, which is when durable
    counters are written. *)
Definition reconstruct (device app run : JsVal) (now : Z)
    (log : list UsageSession) : list UsageSession * bool :=
  match find_open device log with
  | Some s =>
      if negb (not_false run) then
        if bool_decide (us_app s = app)
        then (close_open device now log, true)            (* step 1 *)
        else (log, false)                                 (* step 2 *)
      else
        if bool_decide (us_app s = app)
        then (log, false)                                 (* step 5 *)
        else (open_new device app now (close_open device now log), true)
                                                          (* step 4 *)
  | None =>
      if negb (not_false run) then (log, false)           (* step 2 *)
      else (open_new device app now log, false)           (* step 3 *)
  end.

(** Modelled from the spec: appending to a bounded buffer, the oldest
    entries dropped first (section 4.2). *)
Definition push_bounded (cap : nat) (buf : list SwitchEntry) (e : SwitchEntry)
    : list SwitchEntry :=
  let buf' := buf ++ [e] in
  drop (length buf' - cap) buf'.

(** Modelled from the spec: [StatsRecorder.recordUsage] (section 4.2).
    A start event without an app name is rejected with no state change.
    Otherwise the event is appended to the device's recent-event buffer,
    and the session state machine takes its step; [durable] is the error
    of the durable write made when a session closes, if that write fails,
    in which case the failure is propagated and the session log keeps its
    previous value. *)
Definition recordUsage (durable : option string) (st : State)
    (device app run : JsVal) (now : Z) : State * option Error :=
  if not_false run && negb (truthy app) then
    (st, Some (InvalidInput "app name required"))
  else
    let entry := {| appName := app; timestamp := now; running := run |} in
    let buf := default [] (recentAppSwitches st !! device) in
    let recent' :=
      <[device := push_bounded (capacity st) buf entry]> (recentAppSwitches st) in
    let '(log', closed) := reconstruct device app run now (sessions st) in
    match closed, durable with
    | true, Some msg =>
        ({| batteries := batteries st; sessions := sessions st;
            recentAppSwitches := recent'; capacity := capacity st |},
         Some (StorageFailure msg))
    | _, _ =>
        ({| batteries := batteries st; sessions := log';
            recentAppSwitches := recent'; capacity := capacity st |},
         None)
    end.

End Recorder.

Import Recorder.

(** ** The query engine ([services/StatsQuery], not among the sources) *)

Module Query.

(** The shape of a daily statistics result, as [GET /stats/:deviceId]
    builds it for an empty day. *)
Record DailyStats := {
  totalUsage : Z;
  appStats : gmap string Z;
  hourlyStats : list Z;
  appHourlyStats : gmap string (list Z)
}.

(** [Array(24).fill(0)] *)
Definition zero_hours : list Z := replicate 24 0.

(** [{ totalUsage: 0, appStats: {}, hourlyStats: Array(24).fill(0),
      appHourlyStats: {} }] *)
Definition zero_stats : DailyStats :=
  {| totalUsage := 0; appStats := ∅; hourlyStats := zero_hours;
     appHourlyStats := ∅ |}.

(** An awaited call either returns or throws. *)
Inductive Outcome (A : Type) :=
| Returned (a : A)
| Thrown (message : string).
Arguments Returned {A} a.
Arguments Thrown {A} message.

(** The methods of [statsQuery] the routes call.  A date is the instant
    of a [Date], in milliseconds; a daily result may be a falsy value
    ([None]); weekly and monthly results are passed through untouched, so
    their types [W] and [M] are left open. *)
Record StatsQuery (W M : Type) := {
  getDevices : Outcome (list string);
  getDailyStats : string -> Z -> Outcome (option DailyStats);
  getDailyStatsForAllDevices : Z -> Outcome (option DailyStats);
  getWeeklyAppStats : string -> option string -> Num -> Outcome W;
  getWeeklyAppStatsForAllDevices : option string -> Num -> Outcome W;
  getMonthlyAppStats : string -> option string -> Num -> Outcome M;
  getMonthlyAppStatsForAllDevices : option string -> Num -> Outcome M
}.
Arguments getDevices {W M} _.
Arguments getDailyStats {W M} _ _ _.
Arguments getDailyStatsForAllDevices {W M} _ _.
Arguments getWeeklyAppStats {W M} _ _ _ _.
Arguments getWeeklyAppStatsForAllDevices {W M} _ _ _.
Arguments getMonthlyAppStats {W M} _ _ _ _.
Arguments getMonthlyAppStatsForAllDevices {W M} _ _ _.

(** Which engine method a request reached, with its arguments. *)
Inductive QueryCall :=
| CallDaily (deviceId : string) (date : Z)
| CallDailyAll (date : Z)
| CallWeekly (deviceId : string) (appName : option string) (weekOffset : Num)
| CallWeeklyAll (appName : option string) (weekOffset : Num)
| CallMonthly (deviceId : string) (appName : option string) (monthOffset : Num)
| CallMonthlyAll (appName : option string) (monthOffset : Num).

(** A call that reads one device on its own. *)
Definition individual (c : QueryCall) : option string :=
  match c with
  | CallDaily d _ | CallWeekly d _ _ | CallMonthly d _ _ => Some d
  | CallDailyAll _ | CallWeeklyAll _ _ | CallMonthlyAll _ _ => None
  end.


(** *** Reading a result slot by slot *)

Definition app_usage (s : DailyStats) (app : string) : Z :=
  default 0 (appStats s !! app).

Definition hour_usage (s : DailyStats) (h : nat) : Z :=
  default 0 (hourlyStats s !! h).

Definition app_hour_usage (s : DailyStats) (app : string) (h : nat) : Z :=
  default 0 (default [] (appHourlyStats s !! app) !! h).

(** *** The fleet-wide merge *)

(** Modelled from the spec: two 24-entry histograms summed slot by slot
    (section 4.3, the all-devices merge). *)
Definition add_hours (a b : list Z) : list Z :=
  map (fun h => default 0 (a !! h) + default 0 (b !! h)) (seq 0 24).

(** Modelled from the spec: the merge of one device's result into the
    running one: totals, app maps and histograms summed element-wise. *)
Definition merge_stats (acc s : DailyStats) : DailyStats :=
  {| totalUsage := totalUsage acc + totalUsage s;
     appStats := union_with (fun x y => Some (x + y)) (appStats acc) (appStats s);
     hourlyStats := add_hours (hourlyStats acc) (hourlyStats s);
     appHourlyStats :=
       union_with (fun x y => Some (add_hours x y))
         (appHourlyStats acc) (appHourlyStats s) |}.

(** Modelled from the spec: the merge of a list of devices into a running
    result. *)
Definition merge_all (dailyStats : string -> DailyStats) (acc : DailyStats)
    (devices : list string) : DailyStats :=
  foldl (fun acc d => merge_stats acc (dailyStats d)) acc devices.

Section AllDevices.
(** The devices listing and the per-device daily statistics of one
    date, as the engine computes them. *)
Variable devices : list string.
Variable dailyStats : string -> DailyStats.

(** Modelled from the spec: [StatsQuery.getDailyStatsForAllDevices]
    (section 4.3, dailyStatsAllDevices): computes the daily statistics
    of every known device and merges them by summing totals, app maps
    and hourly histograms element-wise, starting from the zero result. *)
Definition dailyStatsAllDevices : DailyStats :=
  merge_all dailyStats zero_stats devices.

End AllDevices.

(** Sum of a quantity over a list of devices. *)
Definition sum_over (devices : list string) (f : string -> Z) : Z :=
  foldr (fun d acc => f d + acc) 0 devices.

End Query.

Import Query.

(** ** The routes of [apiRoutes.js] *)

Module Routes.

(** A response: its HTTP status and its JSON body, which is either an
    error object [{ error, details }] or the route's own payload. *)
Inductive Body (A : Type) :=
| ErrorBody (error : string) (details : option string)
| Payload (a : A).
Arguments ErrorBody {A} error details.
Arguments Payload {A} a.

Record Response (A : Type) := {
  status : Z;
  body : Body A
}.
Arguments status {A} _.
Arguments body {A} _.

(** [res.status(code).json({ error })] *)
Definition fail {A} (code : Z) (error : string) : Response A :=
  {| status := code; body := ErrorBody error None |}.

(** [res.status(code).json({ error, details })] *)
Definition fail_with {A} (code : Z) (error details : string) : Response A :=
  {| status := code; body := ErrorBody error (Some details) |}.

(** [res.json(payload)] *)
Definition ok {A} (a : A) : Response A :=
  {| status := 200; body := Payload a |}.

(** *** [POST /] *)

(** [req.body], destructured. *)
Record IngestBody := {
  secret : JsVal;
  device : JsVal;
  app_name : JsVal;
  running_flag : JsVal;
  batteryLevel : JsVal;
  isCharging : JsVal
}.

(** The same request with the [batteryLevel] field left out. *)
Definition without_battery (b : IngestBody) : IngestBody :=
  {| secret := secret b; device := device b; app_name := app_name b;
     running_flag := running_flag b; batteryLevel := JUndefined;
     isCharging := isCharging b |}.

(** [{ success: true, batteryInfo, timestamp }] *)
Record IngestOk := {
  batteryInfo : option BatteryState;
  reply_timestamp : Z
}.

(** When the request arrives and how much later each clock reading of
    its handling falls; the lags are natural numbers, the clock does not
    run backwards. *)
Record Timing := {
  received : Z;
  lag_battery : N;
  lag_usage : N;
  lag_reply : N
}.

Definition at_battery (t : Timing) : Z := received t + Z.of_N (lag_battery t).
Definition at_usage (t : Timing) : Z := at_battery t + Z.of_N (lag_usage t).
Definition at_reply (t : Timing) : Z := at_usage t + Z.of_N (lag_reply t).

Section WithHost.
Context `{Host}.

(** Step 1 of the handler: the battery part. *)
Definition ingest_battery (t : Timing) (b : IngestBody) (st : State)
    : State * option Error :=
  if is_defined (batteryLevel b) && gt_num (batteryLevel b) 0
     && le_num (batteryLevel b) 100
  then
    let chargingStatus := is_true (isCharging b) in
    recordBattery st (device b) (batteryLevel b) chargingStatus (at_battery t)
  else (st, None).

(** The reply of the [catch] block. *)
Definition database_error (e : Error) : Response IngestOk :=
  fail_with 500 "Database error" (message_of e).

Definition post_root (env : Env) (t : Timing) (durable : option string)
    (b : IngestBody) (st : State) : Response IngestOk * State :=
  if negb (strict_eq_str (secret b) (SECRET env)) then
    (fail 401 "Invalid secret", st)
  else if negb (truthy (device b)) then
    (fail 400 "Missing device", st)
  else
    match ingest_battery t b st with
    | (st1, Some e) => (database_error e, st1)
    | (st1, None) =>
        let finish (st2 : State) :=
          (ok {| batteryInfo := getLatestBatteryInfo st2 (device b);
                 reply_timestamp := at_reply t |}, st2) in
        if is_defined (app_name b) || is_defined (running_flag b) then
          if not_false (running_flag b) && negb (truthy (app_name b)) then
            (fail 400 "Missing app_name when running is true", st1)
          else
            match recordUsage durable st1 (device b) (app_name b)
                    (running_flag b) (at_usage t) with
            | (st2, Some e) => (database_error e, st2)
            | (st2, None) => finish st2
            end
        else finish st1
    end.

End WithHost.

(** *** [GET /recent/:deviceId] and [GET /recentall] *)

(** [{ appName, timestamp, running }] as the routes return it. *)
Record RecordView := {
  view_appName : JsVal;
  view_timestamp : Z;
  view_running : bool
}.

Definition view (entry : SwitchEntry) : RecordView :=
  {| view_appName := appName entry;
     view_timestamp := timestamp entry;
     view_running := not_false (running entry) |}.

(** [{ success: true, data, count }] *)
Record RecentOk (D : Type) := {
  data : D;
  count : nat
}.
Arguments data {D} _.
Arguments count {D} _.

(** Nothing inside the [try] block of this route can throw here, so its
    [catch] branch is not reached. *)
Definition get_recent (st : State) (deviceId : string)
    : Response (RecentOk (list RecordView)) :=
  let records :=
    match recentAppSwitches st !! JStr deviceId with
    | Some switchEntries => map view switchEntries
    | None => []
    end in
  ok {| data := records; count := length records |}.

(** [obj[key] = value] on an object that started as [{}], for a value that
    is itself an object: the key "__proto__" reaches the setter inherited
    from [Object.prototype], which changes the prototype and adds no
    property; any other key becomes an own property, replacing one of the
    same name. *)
Definition assign {V : Type} (obj : gmap string V) (key : string) (value : V)
    : gmap string V :=
  if String.eqb key "__proto__" then obj else <[key := value]> obj.

(** The [forEach] of [GET /recentall]: the entries of the [Map], in its
    iteration order, are assigned to the object one after the other. *)
Definition fill (obj : gmap string (list RecordView))
    (entries : list (string * list SwitchEntry))
    : gmap string (list RecordView) :=
  foldl (fun obj entry => assign obj (fst entry) (map view (snd entry)))
    obj entries.

(** [GET /recentall], for a recorder whose device identifiers are strings:
    [entries] is the [Map] [recentAppSwitches] in its iteration order.  The
    body shows the own properties of [allRecords]; the count is the size of
    the [Map]. *)
Definition get_recentall (entries : list (string * list SwitchEntry))
    : Response (RecentOk (gmap string (list RecordView))) :=
  let allRecords := fill ∅ entries in
  ok {| data := allRecords; count := length entries |}.

(** [entries] lists what the recorder holds: each device once, with its
    buffer. *)
Definition held_in (st : State) (entries : list (string * list SwitchEntry))
    : Prop :=
  NoDup (fst <$> entries)
  /\ recentAppSwitches st = list_to_map (prod_map JStr id <$> entries).

(** *** [GET /stats/:deviceId], [GET /weekly/:deviceId], [GET /monthly/:deviceId] *)

Section WithEngine.
Context `{Host}.
Context {W M : Type}.
Variable env : Env.
Variable statsQuery : StatsQuery W M.

(** The date of a daily query: [new Date(req.query.date)] when the
    parameter is a non-empty string, [new Date()] otherwise; [None]
    when [isNaN(date.getTime())]. *)
Definition resolve_date (now : Z) (date_q : option string) : option Z :=
  match date_q with
  | Some s => if String.eqb s "" then Some now else date_parse s
  | None => Some now
  end.

(** What the route sends for a returned daily result. *)
Definition shape_daily (stats : option DailyStats) : DailyStats :=
  match stats with
  | None => zero_stats
  | Some s => if totalUsage s =? 0 then zero_stats else s
  end.

(** The engine method a daily query reaches, and what it answers. *)
Definition daily_query (deviceId : string) (date : Z)
    : QueryCall * Outcome (option DailyStats) :=
  if String.eqb deviceId "summary"
  then (CallDailyAll date, getDailyStatsForAllDevices statsQuery date)
  else (CallDaily deviceId date, getDailyStats statsQuery deviceId date).

Definition get_stats (now : Z) (deviceId : string) (date_q : option string)
    : Response DailyStats * list QueryCall :=
  if negb (isSummaryAllowed env deviceId) then
    (fail 403 "Summary is disabled", [])
  else
    match resolve_date now date_q with
    | None =>
        (fail 400 "Invalid date format. Please use YYYY-MM-DD format.", [])
    | Some date =>
        let '(call, outcome) := daily_query deviceId date in
        match outcome with
        | Returned stats => (ok (shape_daily stats), [call])
        | Thrown msg => (fail_with 500 "Database error" msg, [call])
        end
    end.

(** [req.query.appName || null] *)
Definition app_filter (q : option string) : option string :=
  match q with
  | Some s => if String.eqb s "" then None else Some s
  | None => None
  end.

(** [parseInt(req.query.weekOffset) || 0], and the same for months. *)
Definition offset_of (q : option string) : Num := or_zero (parseInt q).

Definition weekly_query (deviceId : string) (appName : option string)
    (weekOffset : Num) : QueryCall * Outcome W :=
  if String.eqb deviceId "summary"
  then (CallWeeklyAll appName weekOffset,
        getWeeklyAppStatsForAllDevices statsQuery appName weekOffset)
  else (CallWeekly deviceId appName weekOffset,
        getWeeklyAppStats statsQuery deviceId appName weekOffset).

Definition monthly_query (deviceId : string) (appName : option string)
    (monthOffset : Num) : QueryCall * Outcome M :=
  if String.eqb deviceId "summary"
  then (CallMonthlyAll appName monthOffset,
        getMonthlyAppStatsForAllDevices statsQuery appName monthOffset)
  else (CallMonthly deviceId appName monthOffset,
        getMonthlyAppStats statsQuery deviceId appName monthOffset).

Definition get_weekly (deviceId : string) (weekOffset_q appName_q : option string)
    : Response W * list QueryCall :=
  if negb (isSummaryAllowed env deviceId) then
    (fail 403 "Summary is disabled", [])
  else
    let weekOffset := offset_of weekOffset_q in
    let appName := app_filter appName_q in
    let '(call, outcome) := weekly_query deviceId appName weekOffset in
    match outcome with
    | Returned stats => (ok stats, [call])
    | Thrown msg => (fail_with 500 "Database error" msg, [call])
    end.

Definition get_monthly (deviceId : string) (monthOffset_q appName_q : option string)
    : Response M * list QueryCall :=
  if negb (isSummaryAllowed env deviceId) then
    (fail 403 "Summary is disabled", [])
  else
    let monthOffset := offset_of monthOffset_q in
    let appName := app_filter appName_q in
    let '(call, outcome) := monthly_query deviceId appName monthOffset in
    match outcome with
    | Returned stats => (ok stats, [call])
    | Thrown msg => (fail_with 500 "Database error" msg, [call])
    end.

End WithEngine.

End Routes.

Import Routes.

(** ** Streams of events reaching the recorder *)

Module Trace.

(** What can reach the recorder: direct calls of its two writers, and
    ingestion requests through [POST /]. *)
Inductive Event :=
| Usage (durable : option string) (device app run : JsVal) (now : Z)
| Battery (device lvl : JsVal) (chg : bool) (now : Z)
| Ingest (env : Env) (t : Timing) (durable : option string) (b : IngestBody).

Section WithHost.
Context `{Host}.

Definition step (st : State) (ev : Event) : State :=
  match ev with
  | Usage durable device app run now =>
      fst (recordUsage durable st device app run now)
  | Battery device lvl chg now =>
      fst (recordBattery st device lvl chg now)
  | Ingest env t durable b =>
      snd (post_root env t durable b st)
  end.

Definition run (st : State) (evs : list Event) : State :=
  foldl step st evs.

End WithHost.

End Trace.

Import Trace.

(** ** A concrete host and deployment for the examples *)

Module Sample.

Fixpoint all_digits (s : string) : bool :=
  match s with
  | EmptyString => true
  | String c r => bool_decide (is_Some (digit_in 10 c)) && all_digits r
  end.

(** A host that reads signed decimal integers as numbers and knows the two
    dates the examples use. *)
#[export] Instance host : Host := {|
  string_to_number s :=
    match trim s with
    | EmptyString => Some 0
    | t =>
        let '(sign, r) := strip_sign t in
        if all_digits r
        then option_map (Z.mul sign) (read_digits 10 None r)
        else None
    end;
  date_parse s :=
    if String.eqb s "1970-01-01" then Some 0
    else if String.eqb s "1970-01-02" then Some 86400000
    else None
|}.

(** No variable set: the default secret, the summary switched off. *)
Definition env_default : Env :=
  {| env_SECRET := None; env_WEB_SUMMARY := None |}.

Definition env_summary_on : Env :=
  {| env_SECRET := Some "s3cret"; env_WEB_SUMMARY := Some " Yes " |}.


Definition timing : Timing :=
  {| received := 1000; lag_battery := 1; lag_usage := 2; lag_reply := 3 |}.

Definition ingest_body (app run lvl chg : JsVal) : IngestBody :=
  {| secret := JStr "default-secret-key"; device := JStr "phone";
     app_name := app; running_flag := run;
     batteryLevel := lvl; isCharging := chg |}.

Definition stats_of (total : Z) (app : string) (h : nat) : DailyStats :=
  {| totalUsage := total;
     appStats := {[ app := total ]};
     hourlyStats := <[h := total]> zero_hours;
     appHourlyStats := {[ app := <[h := total]> zero_hours ]} |}.

(** An engine that knows one device, "phone", with 90 units of usage on
    the first day of the epoch and none on any other; for a week or a month
    it answers with the offset it was asked for. *)
Definition engine : StatsQuery Num Num :=
  {| getDevices := Returned ["phone"];
     getDailyStats d date :=
       Returned (if String.eqb d "phone" && (date =? 0)
                 then Some (stats_of 90 "mail" 9) else None);
     getDailyStatsForAllDevices date :=
       Returned (if date =? 0 then Some (stats_of 90 "mail" 9)
                 else Some zero_stats);
     getWeeklyAppStats _ _ off := Returned off;
     getWeeklyAppStatsForAllDevices _ off := Returned off;
     getMonthlyAppStats _ _ off := Returned off;
     getMonthlyAppStatsForAllDevices _ off := Returned off |}.

(** Requests and recorder states of the examples. *)
Definition request_without_app : IngestBody :=
  ingest_body JUndefined (JBool true) (JNum 55) (JBool true).

Definition request_empty_app : IngestBody :=
  ingest_body (JStr "") JUndefined JUndefined JUndefined.

Definition request_level (n : Z) : IngestBody :=
  ingest_body JUndefined JUndefined (JNum n) (JBool false).

Definition request_mail : IngestBody :=
  ingest_body (JStr "mail") (JBool true) (JNum 55) (JBool true).

Definition busy_state : State :=
  run (init 10) [Usage None (JStr "phone") (JStr "mail") (JBool true) 7].

Definition charged_state : State :=
  run (init 10) [Battery (JStr "phone") (JNum 40) true 7].

Definition fleet_stats (d : string) : DailyStats :=
  if String.eqb d "phone" then stats_of 90 "mail" 9
  else if String.eqb d "laptop" then stats_of 30 "mail" 10
  else zero_stats.

End Sample.

Import Sample.

(** ** The rest of the configuration ([src/index.js]) and [GET /pageConfig] *)

Module Settings.

(** [process.env] as a whole: the variables that are set, by name. *)
Abbreviation ProcessEnv := (gmap string string).

(** The two variables the routes above read. *)
Definition env_of (pe : ProcessEnv) : Env :=
  {| env_SECRET := pe !! "SECRET"; env_WEB_SUMMARY := pe !! "WEB_SUMMARY" |}.

(** [process.env.NAME || fallback], with a string for fallback *)
Definition or_string (o : option string) (fallback : string) : string :=
  match o with
  | Some s => if String.eqb s "" then fallback else s
  | None => fallback
  end.

(** [n || fallback] on the result of [parseInt]: NaN and (either) zero are
    falsy. *)
Definition or_number (n : option Num) (fallback : Z) : Num :=
  match n with
  | Some (Int k) => if k =? 0 then Int fallback else Int k
  | Some (Infinity negative) => Infinity negative
  | None => Int fallback
  end.

(** [value.replace(/\$\$/g, '$')]: every pair of dollar signs, found from
    left to right, becomes one. *)
Fixpoint unescape_dollars (s : string) : string :=
  match s with
  | String "$" (String "$" r) => String "$" (unescape_dollars r)
  | String c r => String c (unescape_dollars r)
  | EmptyString => EmptyString
  end.

(** How a deployment file writes a password for [ADMIN_PASSWD]: each dollar
    sign doubled. *)
Fixpoint double_dollars (s : string) : string :=
  match s with
  | String "$" r => String "$" (String "$" (double_dollars r))
  | String c r => String c (double_dollars r)
  | EmptyString => EmptyString
  end.

(** [value.replace(/\\n/g, '\n')]: a backslash followed by the letter n
    becomes a line feed. *)
Fixpoint unescape_newlines (s : string) : string :=
  match s with
  | String "\" (String "n" r) => String "010" (unescape_newlines r)
  | String c r => String c (unescape_newlines r)
  | EmptyString => EmptyString
  end.

Definition HOST (pe : ProcessEnv) : string := or_string (pe !! "HOST") "0.0.0.0".

(** [process.env.PORT || 3000]: the variable's text, or the number 3000. *)
Definition PORT (pe : ProcessEnv) : JsVal :=
  match pe !! "PORT" with
  | Some s => if String.eqb s "" then JNum 3000 else JStr s
  | None => JNum 3000
  end.

Definition MONGODB_URI (pe : ProcessEnv) : string :=
  or_string (pe !! "MONGODB_URI") "mongodb://localhost:27017/deviceStats".

Definition ADMIN_USER (pe : ProcessEnv) : string :=
  or_string (pe !! "ADMIN_USER") "admin".

(** [process.env.ADMIN_PASSWD?.replace(/\$\$/g, '$') || ''] *)
Definition ADMIN_PASSWD (pe : ProcessEnv) : string :=
  match pe !! "ADMIN_PASSWD" with
  | Some s => or_string (Some (unescape_dollars s)) ""
  | None => ""
  end.

(** [parseInt(process.env.DEFAULT_TIMEZONE_OFFSET) || 8], the offset handed
    to the recorder, the query engine and the summary service. *)
Definition timezoneOffset (pe : ProcessEnv) : Num :=
  or_number (parseInt (pe !! "DEFAULT_TIMEZONE_OFFSET")) 8.

(** The options of [new AISummary(...)] that are computed here. *)
Definition aiModel (pe : ProcessEnv) : string := or_string (pe !! "AI_MODEL") "gpt-4".

Definition aiMaxTokens (pe : ProcessEnv) : Num :=
  or_number (parseInt (pe !! "AI_MAX_TOKENS")) 1000.

Definition intervalHours (pe : ProcessEnv) : Num :=
  or_number (parseInt (pe !! "SCHEDULE_INTERVAL_HOURS")) 4.

(** [process.env.AI_SUMMARY_ENABLED !== 'false'] *)
Definition enabled (pe : ProcessEnv) : bool :=
  negb (strict_eq_str (env_val (pe !! "AI_SUMMARY_ENABLED")) "false").

(** [process.env.PUBLISH_ENABLED !== 'false'] *)
Definition publishEnabled (pe : ProcessEnv) : bool :=
  negb (strict_eq_str (env_val (pe !! "PUBLISH_ENABLED")) "false").

(** [process.env.AI_PROMPT?.replace(/\\n/g, '\n')] *)
Definition aiPrompt (pe : ProcessEnv) : option string :=
  unescape_newlines <$> (pe !! "AI_PROMPT").

(** The [config] object of [GET /pageConfig]. *)
Record PageConfig := {
  WEB_DEVICE_COUNT : bool;
  WEB_COMMENT : bool;
  WEB_AI_SUMMARY : bool;
  WEB_SUMMARY : bool;
  GISCUS_REPO : string;
  GISCUS_REPOID : string;
  GISCUS_CATEGORY : string;
  GISCUS_CATEGORYID : string;
  GISCUS_MAPPING : string;
  GISCUS_REACTIONSENABLED : bool;
  GISCUS_EMITMETADATA : bool;
  GISCUS_INPUTPOSITION : string;
  GISCUS_THEME : string;
  GISCUS_LANG : string
}.

(** [parseBoolean(process.env.NAME, defaultValue)] *)
Definition flag (pe : ProcessEnv) (name : string) (defaultValue : bool) : bool :=
  parseBoolean (env_val (pe !! name)) defaultValue.

Definition page_config (pe : ProcessEnv) : PageConfig :=
  {| WEB_DEVICE_COUNT := flag pe "WEB_DEVICE_COUNT" true;
     WEB_COMMENT := flag pe "WEB_COMMENT" true;
     WEB_AI_SUMMARY := flag pe "AI_SUMMARY_ENABLED" true;
     WEB_SUMMARY := flag pe "WEB_SUMMARY" true;
     GISCUS_REPO := or_string (pe !! "GISCUS_REPO") "";
     GISCUS_REPOID := or_string (pe !! "GISCUS_REPOID") "";
     GISCUS_CATEGORY := or_string (pe !! "GISCUS_CATEGORY") "";
     GISCUS_CATEGORYID := or_string (pe !! "GISCUS_CATEGORYID") "";
     GISCUS_MAPPING := or_string (pe !! "GISCUS_MAPPING") "pathname";
     GISCUS_REACTIONSENABLED := flag pe "GISCUS_REACTIONSENABLED" true;
     GISCUS_EMITMETADATA := flag pe "GISCUS_EMITMETADATA" false;
     GISCUS_INPUTPOSITION := or_string (pe !! "GISCUS_INPUTPOSITION") "bottom";
     GISCUS_THEME := or_string (pe !! "GISCUS_THEME") "light";
     GISCUS_LANG := or_string (pe !! "GISCUS_LANG") "zh-CN" |}.

(** [parseInt(process.env.DEFAULT_TIMEZONE_OFFSET ?? '8')]; [None] is NaN. *)
Definition page_tzOffset (pe : ProcessEnv) : option Num :=
  match pe !! "DEFAULT_TIMEZONE_OFFSET" with
  | Some s => parseInt_str s
  | None => parseInt_str "8"
  end.

(** A Number in a JSON body: NaN and the infinities are written [null],
    which is [None] here. *)
Definition json_number (n : option Num) : option Z :=
  match n with
  | Some (Int k) => Some k
  | Some (Infinity _) | None => None
  end.

(** [{ success: true, config, tzOffset }], as [res.json] writes it. *)
Record PageConfigOk := {
  config : PageConfig;
  tzOffset : option Z
}.

(** [GET /pageConfig]; nothing in its [try] block throws. *)
Definition get_pageConfig (pe : ProcessEnv) : Response PageConfigOk :=
  ok {| config := page_config pe; tzOffset := json_number (page_tzOffset pe) |}.

End Settings.

Import Settings.

(** ** [GET /devices], [GET /ip] and the reserved summary routes *)

Module Plain.

(** [GET /devices]: the engine's listing, or a bare 500. *)
Definition get_devices {W M : Type} (statsQuery : StatsQuery W M)
    : Response (list string) :=
  match getDevices statsQuery with
  | Returned devices => ok devices
  | Thrown _ => fail 500 "Database error"
  end.

(** The [x-forwarded-for] header as Node hands it over: absent, one string,
    or an array of strings. *)
Inductive Forwarded :=
| NoHeader
| OneHeader (value : string)
| ManyHeaders (values : list string).

(** What [getClientIp] reads of a request; an address is a string or is
    undefined. *)
Record IpRequest := {
  forwarded : Forwarded;
  connection_remoteAddress : JsVal;
  socket_remoteAddress : JsVal;
  req_ip : JsVal
}.

(** [s.split(',')[0]]: the text before the first comma. *)
Fixpoint before_comma (s : string) : string :=
  match s with
  | EmptyString => EmptyString
  | String c r => if Ascii.eqb c "," then EmptyString else String c (before_comma r)
  end.

(** [a || b] *)
Definition js_or (a b : JsVal) : JsVal := if truthy a then a else b.

(** [getClientIp(req)]; reading [.trim] of the missing first element of an
    empty array throws a TypeError. *)
Definition getClientIp (req : IpRequest) : Outcome JsVal :=
  let fallback :=
    Returned (js_or (connection_remoteAddress req)
                (js_or (socket_remoteAddress req) (req_ip req))) in
  match forwarded req with
  | OneHeader value =>
      if String.eqb value "" then fallback
      else Returned (JStr (trim (before_comma value)))
  | ManyHeaders values =>
      match values with
      | first :: _ => Returned (JStr (trim first))
      | [] => Thrown "Cannot read properties of undefined (reading 'trim')"
      end
  | NoHeader => fallback
  end.

(** Whether a character occurs in a text. *)
Fixpoint occurs (c : ascii) (s : string) : bool :=
  match s with
  | EmptyString => false
  | String d r => Ascii.eqb c d || occurs c r
  end.

(** [POST /ai/weekly/:deviceId] and [POST /ai/monthly/:deviceId]: reserved,
    always 501 with an [error] and a [message]. *)
Definition post_ai_weekly : Z * string * string :=
  (501, "Weekly summary not implemented yet", "周总结功能将在后续版本中实现").

Definition post_ai_monthly : Z * string * string :=
  (501, "Monthly summary not implemented yet", "月总结功能将在后续版本中实现").

End Plain.

Import Plain.

(** ** The heart-rate relay ([src/index.js], [POST /heart-rate]) *)

Module HeartRate.

(** A WebSocket of the server, by identity. *)
Abbreviation Socket := nat.

(** [hrClients], a [Set]: its members in insertion order, none twice. *)
Abbreviation Clients := (list Socket).

(** [hrClients.add(ws)] *)
Definition set_add (ws : Socket) (clients : Clients) : Clients :=
  if bool_decide (ws ∈ clients) then clients else clients ++ [ws].

(** [hrClients.delete(ws)] *)
Definition set_delete (ws : Socket) (clients : Clients) : Clients :=
  filter (fun c => c <> ws) clients.

(** What the WebSocket server reports: a new connection with the URL it
    asked for, or the closing of a socket. *)
Inductive WsEvent :=
| Connection (ws : Socket) (url : string)
| Close (ws : Socket).

(** [wss.on("connection", ...)] and the [close] handler it installs.  The
    handler is installed only for sockets that were added; for any other
    socket the deletion would find nothing to delete. *)
Definition on_event (clients : Clients) (ev : WsEvent) : Clients :=
  match ev with
  | Connection ws url =>
      if String.eqb url "/ws/heart-rate" then set_add ws clients else clients
  | Close ws => set_delete ws clients
  end.

Definition after_events (evs : list WsEvent) : Clients :=
  foldl on_event [] evs.

(** [WebSocket.OPEN] *)
Definition OPEN : nat := 1.

(** The object handed to [broadcastHeartRate]; the relay sends its JSON
    text, which is kept here as the object. *)
Record HeartRateData := {
  hr_deviceId : JsVal;
  hr_heartRate : JsVal;
  hr_timestamp : JsVal
}.

(** [broadcastHeartRate(data)]: the sends it makes, in order; [readyState]
    is the state of each socket at that moment. *)
Definition broadcastHeartRate (readyState : Socket -> nat) (data : HeartRateData)
    (clients : Clients) : list (Socket * HeartRateData) :=
  map (fun client => (client, data))
      (filter (fun client => readyState client = OPEN) clients).

(** *** What the routes get of [src/index.js]

    The program is started from [src/index.js].  That file loads
    [routes/apiRoutes.js] while it is itself still running, so the
    [require("../index")] of the routes returns the exports object as it
    is at that moment, and a name exported later is [undefined] in the
    routes for good. *)
Inductive IndexStep :=
| Exports (name : string)
| RequiresRoutes.

(** The assignments to [module.exports] of [src/index.js] and its
    [require('./routes/apiRoutes')], in the order of the file. *)
Definition index_steps : list IndexStep :=
  [Exports "mongoose"; Exports "SECRET"; Exports "ADMIN_USER";
   Exports "ADMIN_PASSWD"; Exports "statsRecorder"; Exports "statsQuery";
   Exports "aiSummary"; RequiresRoutes; Exports "broadcastHeartRate"].

(** The names exported when the routes are loaded. *)
Fixpoint exported_before_routes (steps : list IndexStep) : list string :=
  match steps with
  | Exports name :: rest => name :: exported_before_routes rest
  | RequiresRoutes :: _ => []
  | [] => []
  end.

(** [const { broadcastHeartRate } = require("../index")] in the routes: the
    function, or [None] for [undefined]. *)
Definition imported_broadcastHeartRate
    : option ((Socket -> nat) -> HeartRateData -> Clients
              -> list (Socket * HeartRateData)) :=
  if bool_decide ("broadcastHeartRate" ∈ exported_before_routes index_steps)
  then Some broadcastHeartRate
  else None.

(** [req.body] of [POST /heart-rate], destructured. *)
Record HeartRateBody := {
  body_deviceId : JsVal;
  body_heartRate : JsVal;
  body_timestamp : JsVal
}.

(** [POST /heart-rate]: the response the handler writes (its status and
    its [error] or [status] text), or the TypeError it throws before it
    has written one, and the sends made; [now] is [Date.now()]. *)
Definition post_heart_rate (readyState : Socket -> nat) (clients : Clients)
    (now : Z) (b : HeartRateBody)
    : Outcome (Z * string) * list (Socket * HeartRateData) :=
  if negb (truthy (body_deviceId b)) || negb (truthy (body_heartRate b)) then
    (Returned (400, "缺少 deviceId 或 heartRate"), [])
  else
    match imported_broadcastHeartRate with
    | Some broadcast =>
        (Returned (200, "ok"),
         broadcast readyState
           {| hr_deviceId := body_deviceId b;
              hr_heartRate := body_heartRate b;
              hr_timestamp := js_or (body_timestamp b) (JNum now) |}
           clients)
    | None => (Thrown "broadcastHeartRate is not a function", [])
    end.

End HeartRate.

Import HeartRate.

(** ** The summary routes ([/ai/...]) *)

Module Ai.

(** The error objects of these routes: [{ success, error, message, details }],
    each field but [error] present or not. *)
Record ErrorObj := {
  err_success : option bool;
  err_error : string;
  err_message : option string;
  err_details : option string
}.

(** A response of these routes: the status, and the error object or the
    route's payload. *)
Abbreviation AiResponse A := (Z * (ErrorObj + A))%type.

(** A field of the object [{ success: true, deviceId, ...summary }]: one the
    route wrote, or one spread from the summary. *)
Abbreviation Field V := (JsVal + V)%type.

(** The methods and properties of [aiSummary] (services/AISummary, not
    among the sources) that the routes use.  A summary is an object with
    fields of some type [V], or a falsy value ([None]); [T] is what a
    trigger returns.  The time-zone offset is taken to be a Number that is
    not NaN, as the [timezoneOffset] option of [src/index.js] always is. *)
Record AISummary (V T : Type) := {
  getRecentSummary : string -> Outcome (option (gmap string V));
  getAllRecentSummaries : Outcome (gmap string (gmap string V));
  triggerSummary : string -> option string -> Outcome T;
  ai_enabled : bool;
  aiConfig_apiKey : JsVal;
  aiConfig_model : string;
  publishConfig_publishEnabled : bool;
  cronJobs_length : nat;
  getScheduleStrings : list string;
  scheduleConfig_timezoneOffset : Num
}.
Arguments getRecentSummary {V T} _ _.
Arguments getAllRecentSummaries {V T} _.
Arguments triggerSummary {V T} _ _ _.
Arguments ai_enabled {V T} _.
Arguments aiConfig_apiKey {V T} _.
Arguments aiConfig_model {V T} _.
Arguments publishConfig_publishEnabled {V T} _.
Arguments cronJobs_length {V T} _.
Arguments getScheduleStrings {V T} _.
Arguments scheduleConfig_timezoneOffset {V T} _.

(** [{ success: true, deviceId, ...summary }]: the fields of the summary
    are written last and replace a field of the same name. *)
Definition spread_summary {V : Type} (deviceId : string) (summary : gmap string V)
    : gmap string (Field V) :=
  (inr <$> summary)
    ∪ <["deviceId" := inl (JStr deviceId)]> {["success" := inl (JBool true)]}.

(** [GET /ai/summary/:deviceId] *)
Definition get_ai_summary {V T : Type} (aiSummary : AISummary V T)
    (deviceId : string) : AiResponse (gmap string (Field V)) :=
  match getRecentSummary aiSummary deviceId with
  | Returned None =>
      (404, inl {| err_success := Some false;
                   err_error := "No recent summary found for this device";
                   err_message := Some "该设备暂无AI总结记录";
                   err_details := None |})
  | Returned (Some summary) => (200, inr (spread_summary deviceId summary))
  | Thrown msg =>
      (500, inl {| err_success := None;
                   err_error := "Failed to retrieve summary";
                   err_message := None;
                   err_details := Some msg |})
  end.

(** [{ success: true, count, summaries }] *)
Record SummariesOk (V : Type) := {
  summaries_count : nat;
  summaries : gmap string (gmap string V)
}.
Arguments summaries_count {V} _.
Arguments summaries {V} _.

(** [GET /ai/summaries] *)
Definition get_ai_summaries {V T : Type} (aiSummary : AISummary V T)
    : AiResponse (SummariesOk V) :=
  match getAllRecentSummaries aiSummary with
  | Returned all =>
      (200, inr {| summaries_count := size all; summaries := all |})
  | Thrown msg =>
      (500, inl {| err_success := None;
                   err_error := "Failed to retrieve summaries";
                   err_message := None;
                   err_details := Some msg |})
  end.

(** [GET /ai/trigger/:deviceId]: the response and the calls of
    [triggerSummary] made, each with its device and its [date] option. *)
Definition get_ai_trigger {V T : Type} (env : Env) (aiSummary : AISummary V T)
    (deviceId : string) (secret_q date_q : option string)
    : AiResponse T * list (string * option string) :=
  if negb (truthy (env_val secret_q))
     || negb (strict_eq_str (env_val secret_q) (SECRET env)) then
    ((401, inl {| err_success := Some false;
                  err_error := "Invalid or missing secret";
                  err_message := None;
                  err_details := None |}), [])
  else
    let date :=
      match date_q with
      | Some s => if String.eqb s "" then None else Some s
      | None => None
      end in
    match triggerSummary aiSummary deviceId date with
    | Returned result => ((200, inr result), [(deviceId, date)])
    | Thrown msg =>
        ((500, inl {| err_success := None;
                      err_error := "AI summary generation failed";
                      err_message := None;
                      err_details := Some msg |}), [(deviceId, date)])
    end.

(** *** Numbers in template literals *)

Definition digit_char (d : Z) : ascii := ascii_of_nat (48 + Z.to_nat d).

(** The decimal digits of a natural number, most significant first, in
    front of [acc]. *)
Fixpoint digits_of (fuel : nat) (n : Z) (acc : string) : string :=
  match fuel with
  | O => acc
  | S f =>
      let acc' := String (digit_char (n mod 10)) acc in
      if n <? 10 then acc' else digits_of f (n / 10) acc'
  end.

(** More steps than [n] has decimal digits. *)
Definition digit_fuel (n : Z) : nat := S (Z.to_nat (Z.log2 n)).

(** The text of a Number in a template literal.  An integer of magnitude
    below 2^53 is written with all its digits, and an infinity by name.
    From 2^53 on the language writes the fewest digits that read back as
    the same Number, and from 10^21 on an exponent; these are left out,
    and the answer is [None]. *)
Definition number_to_string (n : Num) : option string :=
  match n with
  | Int k =>
      if Z.abs k <? 2 ^ 53 then
        Some (if k <? 0
              then String "-" (digits_of (digit_fuel (- k)) (- k) EmptyString)
              else digits_of (digit_fuel k) k EmptyString)
      else None
  | Infinity negative => Some (if negative then "-Infinity" else "Infinity")
  end.

(** [offset >= 0] *)
Definition ge_zero (n : Num) : bool :=
  match n with
  | Int k => 0 <=? k
  | Infinity negative => negb negative
  end.

(** [`UTC${offset >= 0 ? '+' : ''}${offset}`], where [number_to_string]
    has an answer. *)
Definition timezone_label (offset : Num) : option string :=
  match number_to_string offset with
  | Some text =>
      Some (String.append "UTC"
              (String.append (if ge_zero offset then "+" else "") text))
  | None => None
  end.

(** The body of [GET /ai/status]. *)
Record StatusBody := {
  status_enabled : bool;
  aiConfigured : bool;
  status_publishEnabled : bool;
  cronJobsCount : nat;
  schedules : list string;
  status_model : string;
  defaultTimezone : option string
}.

(** [GET /ai/status] *)
Definition get_ai_status {V T : Type} (aiSummary : AISummary V T) : StatusBody :=
  {| status_enabled := ai_enabled aiSummary;
     aiConfigured := truthy (aiConfig_apiKey aiSummary);
     status_publishEnabled := publishConfig_publishEnabled aiSummary;
     cronJobsCount := cronJobs_length aiSummary;
     schedules := getScheduleStrings aiSummary;
     status_model := aiConfig_model aiSummary;
     defaultTimezone := timezone_label (scheduleConfig_timezoneOffset aiSummary) |}.

End Ai.

Import Ai.

(** ** More inputs for the examples *)

Module Cases.

Definition request_no_secret : IngestBody :=
  {| secret := JStr ""; device := JStr "phone";
     app_name := JStr "mail"; running_flag := JBool true;
     batteryLevel := JNum 55; isCharging := JBool true |}.

(** A stop event that names no app. *)
Definition request_stop : IngestBody :=
  {| secret := JStr "default-secret-key"; device := JStr "phone";
     app_name := JUndefined; running_flag := JBool false;
     batteryLevel := JUndefined; isCharging := JUndefined |}.

(** A summary service that has one summary, for "phone", which carries a
    [deviceId] field of its own. *)
Definition sample_ai : AISummary string Z :=
  {| getRecentSummary d :=
       Returned (if String.eqb d "phone"
                 then Some {[ "deviceId" := "tablet"; "text" := "a quiet day" ]}
                 else None);
     getAllRecentSummaries :=
       Returned {[ "phone" := {[ "deviceId" := "tablet"; "text" := "a quiet day" ]} ]};
     triggerSummary _ _ := Returned 1;
     ai_enabled := true;
     aiConfig_apiKey := JUndefined;
     aiConfig_model := "gpt-4";
     publishConfig_publishEnabled := true;
     cronJobs_length := 0;
     getScheduleStrings := [];
     scheduleConfig_timezoneOffset := Int 8 |}.

(** A recorder that has heard of two devices, one of them called
    "__proto__", and the buffers it holds. *)
Definition proto_state : State :=
  run (init 10) [Usage None (JStr "phone") (JStr "mail") (JBool true) 7;
                 Usage None (JStr "__proto__") (JStr "maps") (JBool true) 9].

Definition proto_entries : list (string * list SwitchEntry) :=
  [("phone", [{| appName := JStr "mail"; timestamp := 7; running := JBool true |}]);
   ("__proto__", [{| appName := JStr "maps"; timestamp := 9; running := JBool true |}])].

End Cases.

Import Cases.

(** * Properties *)

(** ** Coercions *)

Lemma summary_allowed_other (env : Env) (deviceId : string) :
  deviceId <> "summary" -> isSummaryAllowed env deviceId = true.
Proof.
  intros Hne. unfold isSummaryAllowed.
  destruct (String.eqb deviceId "summary") eqn:E; [|reflexivity].
  apply String.eqb_eq in E. contradiction.
Qed.

Lemma summary_allowed_flag (env : Env) :
  isSummaryAllowed env "summary"
  = parseBoolean (env_val (env_WEB_SUMMARY env)) false.
Proof. reflexivity. Qed.

(** An unset or empty [WEB_SUMMARY] switches the summary off. *)
Lemma web_summary_unset (env : Env) :
  env_WEB_SUMMARY env = None \/ env_WEB_SUMMARY env = Some "" ->
  isSummaryAllowed env "summary" = false.
Proof.
  intros [E|E]; rewrite summary_allowed_flag, E; reflexivity.
Qed.

(** The values of [WEB_SUMMARY] that switch the summary on. *)
Lemma web_summary_on (env : Env) :
  isSummaryAllowed env "summary" = true
  <-> exists s, env_WEB_SUMMARY env = Some s
        /\ (trim (toLowerCase s) = "true" \/ trim (toLowerCase s) = "1"
            \/ trim (toLowerCase s) = "yes" \/ trim (toLowerCase s) = "on").
Proof.
  rewrite summary_allowed_flag.
  destruct (env_WEB_SUMMARY env) as [s|]; simpl.
  - destruct (String.eqb s "") eqn:E.
    + apply String.eqb_eq in E. subst s. split; [discriminate|].
      intros (s & [= <-] & Hs). vm_compute in Hs.
      destruct Hs as [Hs|[Hs|[Hs|Hs]]]; discriminate.
    + rewrite !orb_true_iff, !String.eqb_eq. split.
      * intros Hs. exists s. split; [reflexivity|tauto].
      * intros (s' & [= <-] & Hs). tauto.
  - split; [discriminate|]. intros (s & Hs & _). discriminate.
Qed.

Lemma level_ok_num `{Host} (n : Z) :
  level_ok (JNum n) = true <-> 0 < n <= 100.
Proof.
  unfold level_ok, gt_num, le_num. simpl.
  rewrite andb_true_iff, Z.ltb_lt, Z.leb_le. reflexivity.
Qed.




Lemma parseInt_missing : parseInt None = None.
Proof. reflexivity. Qed.


(** ** The query routes *)

Section QueryRoutes.
Context `{Host} {W M : Type}.
Variable env : Env.
Variable q : StatsQuery W M.

Lemma get_stats_forbidden (now : Z) (deviceId : string) (date_q : option string) :
  isSummaryAllowed env deviceId = false ->
  get_stats env q now deviceId date_q = (fail 403 "Summary is disabled", []).
Proof. intros E. unfold get_stats. rewrite E. reflexivity. Qed.



(** Once the summary check is passed and with a date in hand, the daily route is its
    engine call and the shaping of the answer. *)
Lemma get_stats_allowed (now : Z) (deviceId : string) (date_q : option string)
    (date : Z) :
  isSummaryAllowed env deviceId = true ->
  resolve_date now date_q = Some date ->
  get_stats env q now deviceId date_q
  = (match snd (daily_query q deviceId date) with
     | Returned stats => ok (shape_daily stats)
     | Thrown msg => fail_with 500 "Database error" msg
     end, [fst (daily_query q deviceId date)]).
Proof.
  intros Ha Hd. unfold get_stats. rewrite Ha, Hd. simpl.
  destruct (daily_query q deviceId date) as [call [stats|msg]]; reflexivity.
Qed.

Lemma get_weekly_allowed (deviceId : string) (off_q app_q : option string) :
  isSummaryAllowed env deviceId = true ->
  get_weekly env q deviceId off_q app_q
  = (match snd (weekly_query q deviceId (app_filter app_q) (offset_of off_q)) with
     | Returned stats => ok stats
     | Thrown msg => fail_with 500 "Database error" msg
     end,
     [fst (weekly_query q deviceId (app_filter app_q) (offset_of off_q))]).
Proof.
  intros Ha. unfold get_weekly. rewrite Ha. simpl.
  destruct (weekly_query q deviceId (app_filter app_q) (offset_of off_q))
    as [call [stats|msg]]; reflexivity.
Qed.

Lemma get_monthly_allowed (deviceId : string) (off_q app_q : option string) :
  isSummaryAllowed env deviceId = true ->
  get_monthly env q deviceId off_q app_q
  = (match snd (monthly_query q deviceId (app_filter app_q) (offset_of off_q)) with
     | Returned stats => ok stats
     | Thrown msg => fail_with 500 "Database error" msg
     end,
     [fst (monthly_query q deviceId (app_filter app_q) (offset_of off_q))]).
Proof.
  intros Ha. unfold get_monthly. rewrite Ha. simpl.
  destruct (monthly_query q deviceId (app_filter app_q) (offset_of off_q))
    as [call [stats|msg]]; reflexivity.
Qed.


End QueryRoutes.





(** Against C6 as stated: an empty [date] parameter is a supplied
    parameter that is no date, and the daily route takes it for a missing
    one: it computes the statistics of the current day. *)
Lemma empty_date_not_rejected :
  date_parse "" = None
  /\ get_stats env_default engine 5000 "phone" (Some "")
     = (ok zero_stats, [CallDaily "phone" 5000]).
Proof. split; reflexivity. Qed.

(** A query that does not pass the summary check is answered 403 before its
    date is looked at. *)
Example bad_date_after_summary_check :
  get_stats env_default engine 5000 "summary" (Some "garbage")
  = (fail 403 "Summary is disabled", []).
Proof. reflexivity. Qed.

(** C6, amended: on a daily query that passes the summary check, a non-empty
    [date] parameter that does not parse to a date is answered with status
    400 and no engine call is made; a missing or empty [date] parameter
    makes the route query the current day. *)
Theorem unparseable_date_rejected `{Host} {W M : Type} (env : Env)
    (q : StatsQuery W M) (now : Z) (deviceId : string) (date_q : option string) :
  isSummaryAllowed env deviceId = true ->
  (forall s, date_q = Some s -> s <> "" -> date_parse s = None ->
     get_stats env q now deviceId date_q
     = (fail 400 "Invalid date format. Please use YYYY-MM-DD format.", []))
  /\ (date_q = None \/ date_q = Some "" ->
     get_stats env q now deviceId date_q
     = (match snd (daily_query q deviceId now) with
        | Returned stats => ok (shape_daily stats)
        | Thrown msg => fail_with 500 "Database error" msg
        end, [fst (daily_query q deviceId now)])).
Proof.
  intros Ha. split.
  - intros s -> Hne Hparse. unfold get_stats. rewrite Ha. simpl.
    destruct (String.eqb s "") eqn:E.
    + apply String.eqb_eq in E. contradiction.
    + rewrite Hparse. reflexivity.
  - intros Hq. apply get_stats_allowed; [exact Ha|].
    destruct Hq as [->| ->]; reflexivity.
Qed.

Lemma unparseable_date_rejected_witness :
  get_stats env_default engine 5000 "phone" (Some "31/12/1969")
  = (fail 400 "Invalid date format. Please use YYYY-MM-DD format.", [])
  /\ get_stats env_default engine 5000 "phone" None
     = (ok zero_stats, [CallDaily "phone" 5000]).
Proof.
  pose proof (unparseable_date_rejected env_default engine 5000 "phone"
                (Some "31/12/1969") eq_refl) as [Hbad _].
  pose proof (unparseable_date_rejected env_default engine 5000 "phone"
                None eq_refl) as [_ Hnone].
  split.
  - apply (Hbad "31/12/1969"); [reflexivity|discriminate|reflexivity].
  - rewrite Hnone; [reflexivity|left; reflexivity].
Defined.

(** C5: when the engine has no usage for the device and date of a daily
    query (its answer is absent, or has a total of 0), the route answers
    with status 200 and exactly the zero-valued structure: total 0, no
    apps, 24 zero hours, no per-app hours. *)
Theorem no_usage_gives_zero_stats `{Host} {W M : Type} (env : Env)
    (q : StatsQuery W M) (now : Z) (deviceId : string)
    (date_q : option string) (date : Z) (answer : option DailyStats) :
  isSummaryAllowed env deviceId = true ->
  resolve_date now date_q = Some date ->
  snd (daily_query q deviceId date) = Returned answer ->
  (answer = None \/ exists s, answer = Some s /\ totalUsage s = 0) ->
  fst (get_stats env q now deviceId date_q)
  = {| status := 200;
       body := Payload {| totalUsage := 0; appStats := ∅;
                          hourlyStats := replicate 24 0;
                          appHourlyStats := ∅ |} |}.
Proof.
  intros Ha Hd Hans Hzero.
  rewrite (get_stats_allowed env q now deviceId date_q date Ha Hd), Hans. simpl.
  destruct Hzero as [->|[s [-> Ht]]]; simpl; [reflexivity|].
  rewrite Ht. reflexivity.
Qed.

Lemma no_usage_gives_zero_stats_witness :
  fst (get_stats env_default engine 5000 "tablet" (Some "1970-01-02"))
  = {| status := 200;
       body := Payload {| totalUsage := 0; appStats := ∅;
                          hourlyStats := replicate 24 0;
                          appHourlyStats := ∅ |} |}
  /\ fst (get_stats env_summary_on engine 5000 "summary" (Some "1970-01-02"))
  = {| status := 200;
       body := Payload {| totalUsage := 0; appStats := ∅;
                          hourlyStats := replicate 24 0;
                          appHourlyStats := ∅ |} |}.
Proof.
  split.
  - apply (no_usage_gives_zero_stats env_default engine 5000 "tablet"
             (Some "1970-01-02") 86400000 None);
      [reflexivity|reflexivity|reflexivity|left; reflexivity].
  - apply (no_usage_gives_zero_stats env_summary_on engine 5000 "summary"
             (Some "1970-01-02") 86400000 (Some zero_stats));
      [reflexivity|reflexivity|reflexivity|].
    right. exists zero_stats. split; reflexivity.
Defined.

(** ** The recent-switches routes *)




(** ** The ingestion route *)

Section Ingestion.
Context `{Host}.

Lemma recordBattery_frame (st : State) (device lvl : JsVal) (chg : bool) (now : Z) :
  let st' := fst (recordBattery st device lvl chg now) in
  sessions st' = sessions st
  /\ recentAppSwitches st' = recentAppSwitches st
  /\ capacity st' = capacity st.
Proof.
  unfold recordBattery. destruct (level_ok lvl); simpl; auto.
Qed.

Lemma recordUsage_frame (durable : option string) (st : State)
    (device app run : JsVal) (now : Z) :
  let st' := fst (recordUsage durable st device app run now) in
  batteries st' = batteries st /\ capacity st' = capacity st.
Proof.
  unfold recordUsage.
  destruct (not_false run && negb (truthy app)); simpl; [auto|].
  destruct (reconstruct device app run now (sessions st)) as [log' closed].
  destruct closed, durable; simpl; auto.
Qed.

(** The route only hands the recorder levels it accepts. *)
Lemma ingest_battery_no_error (t : Timing) (b : IngestBody) (st : State) :
  snd (ingest_battery t b st) = None.
Proof.
  unfold ingest_battery, recordBattery, level_ok.
  destruct (is_defined (batteryLevel b)); simpl; [|reflexivity].
  destruct (gt_num (batteryLevel b) 0); simpl; [|reflexivity].
  destruct (le_num (batteryLevel b) 100); reflexivity.
Qed.

Lemma ingest_battery_frame (t : Timing) (b : IngestBody) (st : State) :
  let st' := fst (ingest_battery t b st) in
  sessions st' = sessions st
  /\ recentAppSwitches st' = recentAppSwitches st
  /\ capacity st' = capacity st.
Proof.
  unfold ingest_battery.
  destruct (is_defined (batteryLevel b) && gt_num (batteryLevel b) 0
            && le_num (batteryLevel b) 100); [|simpl; auto].
  apply recordBattery_frame.
Qed.

Lemma ingest_battery_skipped (t : Timing) (b : IngestBody) (st : State) :
  level_ok (batteryLevel b) = false -> ingest_battery t b st = (st, None).
Proof.
  unfold ingest_battery, level_ok. intros E.
  rewrite <- andb_assoc, E, andb_false_r. reflexivity.
Qed.

Lemma ingest_battery_stored (t : Timing) (b : IngestBody) (st : State) :
  is_defined (batteryLevel b) = true ->
  level_ok (batteryLevel b) = true ->
  ingest_battery t b st
  = ({| batteries :=
          <[device b := {| level := batteryLevel b;
                           charging := is_true (isCharging b);
                           observedAt := at_battery t |}]> (batteries st);
        sessions := sessions st;
        recentAppSwitches := recentAppSwitches st;
        capacity := capacity st |}, None).
Proof.
  unfold ingest_battery, recordBattery. intros Hd Hok.
  pose proof Hok as Hok'. unfold level_ok in Hok'.
  rewrite Hd. simpl. rewrite Hok'. rewrite Hok. reflexivity.
Qed.

(** A request that passes the two opening checks, with the state the
    battery step leaves. *)
Lemma post_root_accepted (env : Env) (t : Timing) (durable : option string)
    (b : IngestBody) (st : State) :
  strict_eq_str (secret b) (SECRET env) = true ->
  truthy (device b) = true ->
  post_root env t durable b st
  = let st1 := fst (ingest_battery t b st) in
    let finish (st2 : State) :=
      (ok {| batteryInfo := getLatestBatteryInfo st2 (device b);
             reply_timestamp := at_reply t |}, st2) in
    if is_defined (app_name b) || is_defined (running_flag b) then
      if not_false (running_flag b) && negb (truthy (app_name b)) then
        (fail 400 "Missing app_name when running is true", st1)
      else
        match recordUsage durable st1 (device b) (app_name b)
                (running_flag b) (at_usage t) with
        | (st2, Some e) => (database_error e, st2)
        | (st2, None) => finish st2
        end
    else finish st1.
Proof.
  intros Hs Hd. unfold post_root. rewrite Hs, Hd. simpl.
  pose proof (ingest_battery_no_error t b st) as Hn.
  destruct (ingest_battery t b st) as [st1 e]. simpl in *. subst e.
  reflexivity.
Qed.

(** A usage event whose app part is well formed is only refused when the
    durable write fails. *)
Lemma recordUsage_returns (st : State) (device app run : JsVal) (now : Z) :
  not_false run && negb (truthy app) = false ->
  snd (recordUsage None st device app run now) = None.
Proof.
  intros E. unfold recordUsage. rewrite E.
  destruct (reconstruct device app run now (sessions st)) as [log' closed].
  destruct closed; reflexivity.
Qed.

End Ingestion.

(** Against C1 as stated: a request whose app part is refused has, by
    then, had its battery sample recorded: the caller is told 400 and the
    battery state of the device has changed. *)
Lemma rejected_request_keeps_battery_sample :
  fst (post_root env_default timing None request_without_app (init 10))
  = fail 400 "Missing app_name when running is true"
  /\ getLatestBatteryInfo (init 10) (JStr "phone") = None
  /\ getLatestBatteryInfo
       (snd (post_root env_default timing None request_without_app (init 10)))
       (JStr "phone")
     = Some {| level := JNum 55; charging := true; observedAt := 1001 |}
  /\ snd (post_root env_default timing None request_without_app (init 10))
     <> init 10.
Proof.
  split; [reflexivity|]. split; [reflexivity|]. split; [reflexivity|].
  intros E.
  assert (E' : getLatestBatteryInfo
                 (snd (post_root env_default timing None request_without_app
                         (init 10))) (JStr "phone")
               = getLatestBatteryInfo (init 10) (JStr "phone"))
    by (rewrite E; reflexivity).
  vm_compute in E'. discriminate.
Qed.

(** A request that carries neither [app_name] nor [running] has no app
    part to refuse and is answered 200. *)
Example battery_only_request_accepted :
  fst (post_root env_default timing None
         (ingest_body JUndefined JUndefined (JNum 55) (JBool true)) (init 10))
  = ok {| batteryInfo :=
            Some {| level := JNum 55; charging := true; observedAt := 1001 |};
          reply_timestamp := 1006 |}.
Proof. reflexivity. Qed.

(** C1, amended: an ingestion request with the right secret and a device,
    which carries an app part ([app_name] or [running] is present) that is
    invalid ([running] is not [false] and [app_name] is empty or missing),
    is answered with status 400, and the request changes neither the
    session log nor any recent-event buffer: [recordUsage] is not reached. *)
Theorem invalid_app_state_rejected `{Host} (env : Env) (t : Timing)
    (durable : option string) (b : IngestBody) (st : State) :
  strict_eq_str (secret b) (SECRET env) = true ->
  truthy (device b) = true ->
  is_defined (app_name b) || is_defined (running_flag b) = true ->
  not_false (running_flag b) = true ->
  truthy (app_name b) = false ->
  fst (post_root env t durable b st)
  = {| status := 400;
       body := ErrorBody "Missing app_name when running is true" None |}
  /\ snd (post_root env t durable b st) = fst (ingest_battery t b st)
  /\ sessions (snd (post_root env t durable b st)) = sessions st
  /\ recentAppSwitches (snd (post_root env t durable b st)) = recentAppSwitches st.
Proof.
  intros Hs Hd Hpart Hrun Happ.
  rewrite (post_root_accepted env t durable b st Hs Hd).
  cbv zeta. rewrite Hpart, Hrun, Happ. simpl.
  destruct (ingest_battery_frame t b st) as (Hses & Hrec & _).
  auto.
Qed.

Lemma invalid_app_state_rejected_witness :
  fst (post_root env_default timing None request_empty_app busy_state)
  = {| status := 400;
       body := ErrorBody "Missing app_name when running is true" None |}
  /\ snd (post_root env_default timing None request_empty_app busy_state)
     = fst (ingest_battery timing request_empty_app busy_state)
  /\ sessions (snd (post_root env_default timing None request_empty_app busy_state))
     = sessions busy_state
  /\ recentAppSwitches
       (snd (post_root env_default timing None request_empty_app busy_state))
     = recentAppSwitches busy_state.
Proof.
  apply (invalid_app_state_rejected env_default timing None request_empty_app
           busy_state); reflexivity.
Defined.

(** Against C2 as stated: a battery level of 0 or of 101 is answered with
    status 200 and the success body: no error about the level reaches the
    caller. *)
Lemma out_of_range_level_not_reported :
  fst (post_root env_default timing None (request_level 0) (init 10))
  = {| status := 200;
       body := Payload {| batteryInfo := None; reply_timestamp := 1006 |} |}
  /\ fst (post_root env_default timing None (request_level 101) (init 10))
  = {| status := 200;
       body := Payload {| batteryInfo := None; reply_timestamp := 1006 |} |}.
Proof. split; reflexivity. Qed.

(** C2, amended: an ingestion request that carries a battery level outside
    (0,100] is handled exactly as the same request without a battery level:
    the level is skipped without an error of its own, it is not stored, and
    the battery state of every device is what it was.  With the right
    secret, a device and no app part, the answer is the success body with
    the device's previous battery state. *)
Theorem out_of_range_level_skipped `{Host} (env : Env) (t : Timing)
    (durable : option string) (b : IngestBody) (st : State) :
  level_ok (batteryLevel b) = false ->
  post_root env t durable b st = post_root env t durable (without_battery b) st
  /\ batteries (snd (post_root env t durable b st)) = batteries st
  /\ (strict_eq_str (secret b) (SECRET env) = true ->
      truthy (device b) = true ->
      is_defined (app_name b) || is_defined (running_flag b) = false ->
      post_root env t durable b st
      = (ok {| batteryInfo := getLatestBatteryInfo st (device b);
               reply_timestamp := at_reply t |}, st)).
Proof.
  intros Hbad.
  pose proof (ingest_battery_skipped t b st Hbad) as Hb.
  assert (Hb' : ingest_battery t (without_battery b) st = (st, None))
    by reflexivity.
  split; [|split].
  - unfold post_root. rewrite Hb, Hb'. reflexivity.
  - unfold post_root.
    destruct (negb (strict_eq_str (secret b) (SECRET env))); [reflexivity|].
    destruct (negb (truthy (device b))); [reflexivity|].
    rewrite Hb.
    destruct (is_defined (app_name b) || is_defined (running_flag b));
      [|reflexivity].
    destruct (not_false (running_flag b) && negb (truthy (app_name b)));
      [reflexivity|].
    pose proof (recordUsage_frame durable st (device b) (app_name b)
                  (running_flag b) (at_usage t)) as [Hbat _].
    destruct (recordUsage durable st (device b) (app_name b)
                (running_flag b) (at_usage t)) as [st2 [e|]]; exact Hbat.
  - intros Hs Hd Hpart.
    rewrite (post_root_accepted env t durable b st Hs Hd).
    cbv zeta. rewrite Hpart, Hb. reflexivity.
Qed.

Lemma out_of_range_level_skipped_witness :
  post_root env_default timing None (request_level 101) charged_state
  = post_root env_default timing None (without_battery (request_level 101))
      charged_state
  /\ batteries (snd (post_root env_default timing None (request_level 101)
                       charged_state))
     = batteries charged_state
  /\ post_root env_default timing None (request_level 101) charged_state
     = (ok {| batteryInfo :=
                Some {| level := JNum 40; charging := true; observedAt := 7 |};
              reply_timestamp := 1006 |}, charged_state).
Proof.
  pose proof (out_of_range_level_skipped env_default timing None
                (request_level 101) charged_state eq_refl)
    as (Hsame & Hbat & Hok).
  split; [exact Hsame|]. split; [exact Hbat|].
  apply Hok; reflexivity.
Defined.

(** C8: an ingestion request with the right secret and a device that
    carries battery level 55 with [isCharging = true] leaves, as the
    device's latest battery information, exactly level 55 and charging
    true, observed no earlier than the request was received; a success body
    of that request carries the same information, and the request succeeds
    when its app part is absent, or well formed with no storage failure. *)
Theorem battery_round_trip `{Host} (env : Env) (t : Timing)
    (durable : option string) (b : IngestBody) (st : State) :
  strict_eq_str (secret b) (SECRET env) = true ->
  truthy (device b) = true ->
  batteryLevel b = JNum 55 ->
  isCharging b = JBool true ->
  let info := {| level := JNum 55; charging := true; observedAt := at_battery t |} in
  let result := post_root env t durable b st in
  getLatestBatteryInfo (snd result) (device b) = Some info
  /\ received t <= observedAt info
  /\ (forall p, body (fst result) = Payload p -> batteryInfo p = Some info)
  /\ (is_defined (app_name b) || is_defined (running_flag b) = false
      \/ (not_false (running_flag b) && negb (truthy (app_name b)) = false
          /\ durable = None) ->
      fst result = ok {| batteryInfo := Some info; reply_timestamp := at_reply t |}).
Proof.
  intros Hs Hd Hlvl Hchg info result. subst result.
  rewrite (post_root_accepted env t durable b st Hs Hd). cbv zeta.
  assert (Hst : ingest_battery t b st
          = ({| batteries := <[device b := info]> (batteries st);
                sessions := sessions st;
                recentAppSwitches := recentAppSwitches st;
                capacity := capacity st |}, None)).
  { rewrite ingest_battery_stored; rewrite Hlvl; try reflexivity.
    rewrite Hchg. reflexivity. }
  rewrite Hst. simpl fst.
  set (st1 := {| batteries := <[device b := info]> (batteries st);
                 sessions := sessions st;
                 recentAppSwitches := recentAppSwitches st;
                 capacity := capacity st |}).
  assert (H1 : getLatestBatteryInfo st1 (device b) = Some info)
    by apply lookup_insert_eq.
  assert (H2 : forall st2, batteries st2 = batteries st1 ->
                 getLatestBatteryInfo st2 (device b) = Some info).
  { intros st2 E. unfold getLatestBatteryInfo in *. rewrite E. exact H1. }
  pose proof (recordUsage_frame durable st1 (device b) (app_name b)
                (running_flag b) (at_usage t)) as [Hbat _].
  split; [|split; [|split]].
  - destruct (is_defined (app_name b) || is_defined (running_flag b));
      [|exact H1].
    destruct (not_false (running_flag b) && negb (truthy (app_name b)));
      [exact H1|].
    destruct (recordUsage durable st1 (device b) (app_name b)
                (running_flag b) (at_usage t)) as [st2 [e|]]; simpl in *; auto.
  - unfold info, at_battery. simpl. lia.
  - intros p.
    destruct (is_defined (app_name b) || is_defined (running_flag b)).
    + destruct (not_false (running_flag b) && negb (truthy (app_name b)));
        [discriminate|].
      destruct (recordUsage durable st1 (device b) (app_name b)
                  (running_flag b) (at_usage t)) as [st2 [e|]]; simpl in *;
        [discriminate|].
      intros [= <-]. simpl. auto.
    + simpl. intros [= <-]. simpl. exact H1.
  - intros [Hpart|[Hvalid ->]].
    + rewrite Hpart. simpl. rewrite H1. reflexivity.
    + destruct (is_defined (app_name b) || is_defined (running_flag b));
        [|simpl; rewrite H1; reflexivity].
      rewrite Hvalid.
      pose proof (recordUsage_returns st1 (device b) (app_name b)
                    (running_flag b) (at_usage t) Hvalid) as Hret.
      destruct (recordUsage None st1 (device b) (app_name b)
                  (running_flag b) (at_usage t)) as [st2 e]. simpl in *.
      subst e. simpl. rewrite (H2 st2 Hbat). reflexivity.
Qed.

Lemma battery_round_trip_witness :
  getLatestBatteryInfo
    (snd (post_root env_default timing None request_mail (init 10)))
    (JStr "phone")
  = Some {| level := JNum 55; charging := true; observedAt := 1001 |}
  /\ 1000 <= 1001
  /\ fst (post_root env_default timing None request_mail (init 10))
     = ok {| batteryInfo :=
               Some {| level := JNum 55; charging := true; observedAt := 1001 |};
             reply_timestamp := 1006 |}.
Proof.
  pose proof (battery_round_trip env_default timing None request_mail
                (init 10) eq_refl eq_refl eq_refl eq_refl)
    as (Hread & Htime & _ & Hok).
  split; [exact Hread|]. split; [exact Htime|].
  apply Hok. right. split; reflexivity.
Defined.

(** ** The session state machine *)

Lemma open_for_device (device d : JsVal) (s : UsageSession) :
  open_for device s = true -> d <> device -> open_for d s = false.
Proof.
  unfold open_for. intros E Hne.
  apply andb_true_iff in E as [_ E]. apply bool_decide_eq_true in E.
  rewrite bool_decide_eq_false_2; [apply andb_false_r|congruence].
Qed.

Lemma count_open_close (device d : JsVal) (now : Z) (log : list UsageSession) :
  count_open d (close_open device now log)
  = if bool_decide (d = device) then Nat.pred (count_open d log)
    else count_open d log.
Proof.
  induction log as [|s rest IH]; simpl.
  - destruct (bool_decide (d = device)); reflexivity.
  - destruct (open_for device s) eqn:E; simpl.
    + destruct (bool_decide (d = device)) eqn:D.
      * apply bool_decide_eq_true in D. subst d. rewrite E. reflexivity.
      * apply bool_decide_eq_false in D.
        rewrite (open_for_device device d s E D). reflexivity.
    + rewrite IH. destruct (bool_decide (d = device)) eqn:D; [|reflexivity].
      apply bool_decide_eq_true in D. subst d. rewrite E. reflexivity.
Qed.

Lemma count_open_snoc (d : JsVal) (log : list UsageSession) (s : UsageSession) :
  count_open d (log ++ [s])
  = (count_open d log + if open_for d s then 1 else 0)%nat.
Proof.
  induction log as [|x rest IH]; simpl; [lia|]. rewrite IH. lia.
Qed.

Lemma count_open_new (device app d : JsVal) (now : Z) (log : list UsageSession) :
  count_open d (open_new device app now log)
  = (count_open d log + if bool_decide (d = device) then 1 else 0)%nat.
Proof.
  unfold open_new. rewrite count_open_snoc. unfold open_for. simpl.
  destruct (decide (device = d)) as [->|Hne].
  - rewrite !bool_decide_eq_true_2 by reflexivity. reflexivity.
  - rewrite !bool_decide_eq_false_2 by congruence. reflexivity.
Qed.

Lemma find_open_none (device : JsVal) (log : list UsageSession) :
  find_open device log = None -> count_open device log = 0%nat.
Proof.
  induction log as [|s rest IH]; simpl; [reflexivity|].
  destruct (open_for device s); [discriminate|]. exact IH.
Qed.

Lemma find_open_some (device : JsVal) (log : list UsageSession) (s : UsageSession) :
  find_open device log = Some s ->
  s ∈ log /\ open_for device s = true /\ (1 <= count_open device log)%nat.
Proof.
  induction log as [|x rest IH]; simpl; [discriminate|].
  destruct (open_for device x) eqn:E.
  - intros [= ->]. split; [left|]. split; [exact E|lia].
  - intros Hf. destruct (IH Hf) as (Hin & Ho & Hc).
    split; [right; exact Hin|]. split; [exact Ho|lia].
Qed.

Lemma count_zero_find_none (device : JsVal) (log : list UsageSession) :
  count_open device log = 0%nat -> find_open device log = None.
Proof.
  induction log as [|s rest IH]; simpl; [reflexivity|].
  destruct (open_for device s); [discriminate|]. exact IH.
Qed.

(** Closing leaves the device without an open session, provided it had at
    most one. *)
Lemma find_open_close_same (device : JsVal) (now : Z) (log : list UsageSession) :
  (count_open device log <= 1)%nat ->
  find_open device (close_open device now log) = None.
Proof.
  induction log as [|s rest IH]; simpl; [reflexivity|].
  destruct (open_for device s) eqn:E; simpl.
  - intros Hc. apply count_zero_find_none. lia.
  - rewrite E. exact IH.
Qed.

Lemma find_open_close_other (device d : JsVal) (now : Z) (log : list UsageSession) :
  d <> device ->
  find_open d (close_open device now log) = find_open d log.
Proof.
  intros Hne. induction log as [|s rest IH]; simpl; [reflexivity|].
  destruct (open_for device s) eqn:E; simpl.
  - rewrite (open_for_device device d s E Hne). reflexivity.
  - rewrite IH. reflexivity.
Qed.

Lemma find_open_snoc (d : JsVal) (log : list UsageSession) (s : UsageSession) :
  find_open d (log ++ [s])
  = match find_open d log with
    | Some x => Some x
    | None => if open_for d s then Some s else None
    end.
Proof.
  induction log as [|x rest IH]; simpl; [reflexivity|].
  destruct (open_for d x); [reflexivity|exact IH].
Qed.

Lemma session_state_open_new (device app d : JsVal) (now : Z)
    (log : list UsageSession) :
  session_state d (open_new device app now log)
  = match session_state d log with
    | NoSession => if bool_decide (d = device) then Open app now else NoSession
    | st => st
    end.
Proof.
  unfold session_state, open_new. rewrite find_open_snoc.
  destruct (find_open d log); [reflexivity|].
  unfold open_for. simpl.
  destruct (decide (device = d)) as [->|Hne].
  - rewrite !bool_decide_eq_true_2 by reflexivity. reflexivity.
  - rewrite !bool_decide_eq_false_2 by congruence. reflexivity.
Qed.

(** On a log with at most one open session per device, an event moves the
    state of its device as the two-state machine says and leaves the state
    of every other device alone. *)
Lemma reconstruct_follows_machine (device app run : JsVal) (now : Z)
    (log : list UsageSession) :
  single_open log ->
  session_state device (fst (reconstruct device app run now log))
  = machine_step (session_state device log) app run now
  /\ (forall d, d <> device ->
        session_state d (fst (reconstruct device app run now log))
        = session_state d log).
Proof.
  intros Hinv. pose proof (Hinv device) as Hdev. split.
  - unfold reconstruct, machine_step.
    unfold session_state at 2.
    destruct (find_open device log) as [s|] eqn:F.
    + destruct (negb (not_false run)), (bool_decide (us_app s = app)); simpl.
      * unfold session_state. rewrite find_open_close_same by exact Hdev.
        reflexivity.
      * unfold session_state. rewrite F. reflexivity.
      * unfold session_state. rewrite F. reflexivity.
      * rewrite session_state_open_new. unfold session_state.
        rewrite find_open_close_same by exact Hdev.
        rewrite bool_decide_eq_true_2 by reflexivity. reflexivity.
    + destruct (negb (not_false run)); simpl.
      * unfold session_state. rewrite F. reflexivity.
      * rewrite session_state_open_new. unfold session_state. rewrite F.
        rewrite bool_decide_eq_true_2 by reflexivity. reflexivity.
  - intros d Hne. unfold reconstruct.
    assert (Hclose : session_state d (close_open device now log)
                     = session_state d log).
    { unfold session_state. rewrite find_open_close_other by exact Hne.
      reflexivity. }
    assert (Hnew : forall l, session_state d (open_new device app now l)
                             = session_state d l).
    { intros l. rewrite session_state_open_new.
      rewrite bool_decide_eq_false_2 by exact Hne.
      destruct (session_state d l); reflexivity. }
    destruct (find_open device log) as [s|].
    + destruct (negb (not_false run)), (bool_decide (us_app s = app)); simpl;
        rewrite ?Hnew, ?Hclose; reflexivity.
    + destruct (negb (not_false run)); simpl; rewrite ?Hnew; reflexivity.
Qed.

(** Each of the five transitions keeps at most one session open. *)
Lemma reconstruct_single_open (device app run : JsVal) (now : Z)
    (log : list UsageSession) :
  single_open log ->
  single_open (fst (reconstruct device app run now log)).
Proof.
  intros Hinv d. unfold reconstruct.
  pose proof (Hinv d) as Hd. pose proof (Hinv device) as Hdev.
  destruct (find_open device log) as [s|] eqn:F.
  - destruct (negb (not_false run)), (bool_decide (us_app s = app)); simpl;
      try exact Hd.
    + rewrite count_open_close. destruct (bool_decide (d = device)); lia.
    + rewrite count_open_new, count_open_close.
      destruct (bool_decide (d = device)) eqn:D; [|lia].
      apply bool_decide_eq_true in D. subst d. lia.
  - apply find_open_none in F.
    destruct (negb (not_false run)); simpl; [exact Hd|].
    rewrite count_open_new.
    destruct (bool_decide (d = device)) eqn:D; [|lia].
    apply bool_decide_eq_true in D. subst d. lia.
Qed.

Lemma recordUsage_single_open (durable : option string) (st : State)
    (device app run : JsVal) (now : Z) :
  single_open (sessions st) ->
  single_open (sessions (fst (recordUsage durable st device app run now))).
Proof.
  intros Hinv. unfold recordUsage.
  destruct (not_false run && negb (truthy app)); [exact Hinv|].
  pose proof (reconstruct_single_open device app run now (sessions st) Hinv) as Hr.
  destruct (reconstruct device app run now (sessions st)) as [log' closed].
  destruct closed, durable; simpl in *; assumption.
Qed.

Lemma post_root_single_open `{Host} (env : Env) (t : Timing)
    (durable : option string) (b : IngestBody) (st : State) :
  single_open (sessions st) ->
  single_open (sessions (snd (post_root env t durable b st))).
Proof.
  intros Hinv. unfold post_root.
  destruct (negb (strict_eq_str (secret b) (SECRET env))); [exact Hinv|].
  destruct (negb (truthy (device b))); [exact Hinv|].
  pose proof (ingest_battery_frame t b st) as (Hses & _).
  destruct (ingest_battery t b st) as [st1 [e|]]; simpl in *;
    [rewrite Hses; exact Hinv|].
  assert (Hinv1 : single_open (sessions st1)) by (rewrite Hses; exact Hinv).
  destruct (is_defined (app_name b) || is_defined (running_flag b));
    [|exact Hinv1].
  destruct (not_false (running_flag b) && negb (truthy (app_name b)));
    [exact Hinv1|].
  pose proof (recordUsage_single_open durable st1 (device b) (app_name b)
                (running_flag b) (at_usage t) Hinv1) as Hu.
  destruct (recordUsage durable st1 (device b) (app_name b)
              (running_flag b) (at_usage t)) as [st2 [e|]]; exact Hu.
Qed.

Lemma step_single_open `{Host} (st : State) (ev : Event) :
  single_open (sessions st) -> single_open (sessions (step st ev)).
Proof.
  intros Hinv. destruct ev as [durable device app run now
                              |device lvl chg now|env t durable b]; simpl.
  - apply recordUsage_single_open, Hinv.
  - destruct (recordBattery_frame st device lvl chg now) as (-> & _). exact Hinv.
  - apply post_root_single_open, Hinv.
Qed.

Lemma run_single_open `{Host} (evs : list Event) (st : State) :
  single_open (sessions st) -> single_open (sessions (run st evs)).
Proof.
  revert st. induction evs as [|ev evs IH]; intros st Hinv; [exact Hinv|].
  simpl. apply IH, step_single_open, Hinv.
Qed.

(** An accepted usage event moves the state of its device as the machine
    says. *)
Lemma recordUsage_follows_machine (durable : option string) (st : State)
    (device app run : JsVal) (now : Z) :
  single_open (sessions st) ->
  snd (recordUsage durable st device app run now) = None ->
  session_state device (sessions (fst (recordUsage durable st device app run now)))
  = machine_step (session_state device (sessions st)) app run now.
Proof.
  intros Hinv. unfold recordUsage.
  destruct (not_false run && negb (truthy app)); [discriminate|].
  pose proof (reconstruct_follows_machine device app run now (sessions st) Hinv)
    as [Hstep _].
  destruct (reconstruct device app run now (sessions st)) as [log' closed].
  destruct closed, durable; simpl in *; try discriminate; intros _; exact Hstep.
Qed.

(** C3: the recorder starts with no session for any device, and after any
    sequence of usage events, battery samples and ingestion requests, for
    every device at most one session of the log is open; the device's
    state read off the log is NoSession exactly when none is open, and
    otherwise Open with the app and start of the one open session; and a
    further accepted usage event moves that state by the transitions of the
    two-state machine. *)
Theorem at_most_one_open_session `{Host} (cap : nat) (evs : list Event)
    (device : JsVal) :
  let st := run (init cap) evs in
  session_state device (sessions (init cap)) = NoSession
  /\ (count_open device (sessions st) <= 1)%nat
  /\ match session_state device (sessions st) with
     | NoSession => count_open device (sessions st) = 0%nat
     | Open app started =>
         count_open device (sessions st) = 1%nat
         /\ exists s, s ∈ sessions st /\ us_device s = device
              /\ endedAt s = None /\ us_app s = app /\ startedAt s = started
     end
  /\ (forall durable app run now,
        snd (recordUsage durable st device app run now) = None ->
        session_state device
          (sessions (fst (recordUsage durable st device app run now)))
        = machine_step (session_state device (sessions st)) app run now).
Proof.
  intros st.
  assert (Hinv : single_open (sessions st)).
  { apply run_single_open. intros d. simpl. lia. }
  split; [reflexivity|]. split; [apply Hinv|]. split.
  - unfold session_state.
    destruct (find_open device (sessions st)) as [s|] eqn:F.
    + destruct (find_open_some device (sessions st) s F) as (Hin & Ho & Hc).
      split; [pose proof (Hinv device); lia|].
      exists s. unfold open_for, is_open in Ho.
      apply andb_true_iff in Ho as [Hopen Hdev].
      apply bool_decide_eq_true in Hdev.
      destruct (endedAt s); [discriminate|]. auto.
    + apply find_open_none, F.
  - intros durable app run now. apply recordUsage_follows_machine, Hinv.
Qed.

Lemma at_most_one_open_session_witness :
  session_state (JStr "phone") (sessions busy_state) = Open (JStr "mail") 7
  /\ session_state (JStr "phone")
       (sessions (fst (recordUsage None busy_state (JStr "phone") (JStr "maps")
                         JUndefined 9)))
     = Open (JStr "maps") 9
  /\ (count_open (JStr "phone")
        (sessions (fst (recordUsage None busy_state (JStr "phone") (JStr "maps")
                          JUndefined 9))) <= 1)%nat.
Proof.
  pose proof (at_most_one_open_session 10
                [Usage None (JStr "phone") (JStr "mail") (JBool true) 7]
                (JStr "phone")) as (_ & _ & _ & Hstep).
  pose proof (at_most_one_open_session 10
                [Usage None (JStr "phone") (JStr "mail") (JBool true) 7;
                 Usage None (JStr "phone") (JStr "maps") JUndefined 9]
                (JStr "phone")) as (_ & Hcount & _).
  split; [reflexivity|]. split.
  - exact (Hstep None (JStr "maps") JUndefined 9 eq_refl).
  - exact Hcount.
Defined.

(** ** The fleet-wide merge *)

Lemma lookup_add_hours (a b : list Z) (h : nat) :
  (h < 24)%nat ->
  add_hours a b !! h = Some (default 0 (a !! h) + default 0 (b !! h)).
Proof.
  intros Hh. unfold add_hours.
  change (map ?f ?l) with (fmap (M:=list) f l).
  rewrite list_lookup_fmap, lookup_seq_lt by exact Hh. reflexivity.
Qed.

Lemma length_add_hours (a b : list Z) : length (add_hours a b) = 24%nat.
Proof. reflexivity. Qed.

Lemma add_hours_zero (a : list Z) :
  length a = 24%nat -> add_hours a zero_hours = a.
Proof.
  intros Hlen. apply list_eq. intros i.
  destruct (decide (i < 24)%nat) as [Hi|Hi].
  - rewrite lookup_add_hours by exact Hi.
    destruct (lookup_lt_is_Some_2 a i) as [x Hx]; [lia|].
    rewrite Hx. unfold zero_hours.
    rewrite lookup_replicate_2 by exact Hi. simpl. f_equal. lia.
  - rewrite !lookup_ge_None_2; [reflexivity|lia|rewrite length_add_hours; lia].
Qed.

Lemma merge_total (acc s : DailyStats) :
  totalUsage (merge_stats acc s) = totalUsage acc + totalUsage s.
Proof. reflexivity. Qed.

Lemma merge_app_usage (acc s : DailyStats) (app : string) :
  app_usage (merge_stats acc s) app = app_usage acc app + app_usage s app.
Proof.
  unfold app_usage, merge_stats. simpl. rewrite lookup_union_with.
  destruct (appStats acc !! app), (appStats s !! app); simpl; lia.
Qed.

Lemma merge_hour_usage (acc s : DailyStats) (h : nat) :
  (h < 24)%nat ->
  hour_usage (merge_stats acc s) h = hour_usage acc h + hour_usage s h.
Proof.
  intros Hh. unfold hour_usage, merge_stats. simpl.
  rewrite lookup_add_hours by exact Hh. reflexivity.
Qed.

Lemma merge_app_hour_usage (acc s : DailyStats) (app : string) (h : nat) :
  (h < 24)%nat ->
  app_hour_usage (merge_stats acc s) app h
  = app_hour_usage acc app h + app_hour_usage s app h.
Proof.
  intros Hh. unfold app_hour_usage, merge_stats. simpl.
  rewrite lookup_union_with.
  destruct (appHourlyStats acc !! app) as [x|],
           (appHourlyStats s !! app) as [y|]; simpl.
  - rewrite lookup_add_hours by exact Hh. reflexivity.
  - lia.
  - lia.
  - reflexivity.
Qed.

Lemma merge_app_known (acc s : DailyStats) (app : string) :
  is_Some (appStats (merge_stats acc s) !! app)
  <-> is_Some (appStats acc !! app) \/ is_Some (appStats s !! app).
Proof.
  unfold merge_stats. simpl. rewrite lookup_union_with.
  destruct (appStats acc !! app), (appStats s !! app); simpl;
    split; intros Hs; eauto; destruct Hs as [Hs|Hs]; eauto.
Qed.

(** A zero-usage result is neutral for the merge. *)
Lemma merge_zero (acc : DailyStats) :
  length (hourlyStats acc) = 24%nat -> merge_stats acc zero_stats = acc.
Proof.
  intros Hlen. destruct acc as [t apps hours apphours]. simpl in Hlen.
  unfold merge_stats. simpl. f_equal.
  - lia.
  - apply map_eq. intros i. rewrite lookup_union_with, lookup_empty.
    destruct (apps !! i); reflexivity.
  - apply add_hours_zero, Hlen.
  - apply map_eq. intros i. rewrite lookup_union_with, lookup_empty.
    destruct (apphours !! i); reflexivity.
Qed.

Section Merge.
Variable dailyStats : string -> DailyStats.

Lemma merge_all_total (devices : list string) (acc : DailyStats) :
  totalUsage (merge_all dailyStats acc devices)
  = totalUsage acc + sum_over devices (fun d => totalUsage (dailyStats d)).
Proof.
  revert acc. induction devices as [|d l IH]; intros acc; simpl; [lia|].
  rewrite IH, merge_total. lia.
Qed.

Lemma merge_all_app_usage (app : string) (devices : list string) (acc : DailyStats) :
  app_usage (merge_all dailyStats acc devices) app
  = app_usage acc app + sum_over devices (fun d => app_usage (dailyStats d) app).
Proof.
  revert acc. induction devices as [|d l IH]; intros acc; simpl; [lia|].
  rewrite IH, merge_app_usage. lia.
Qed.

Lemma merge_all_hour_usage (h : nat) (devices : list string) (acc : DailyStats) :
  (h < 24)%nat ->
  hour_usage (merge_all dailyStats acc devices) h
  = hour_usage acc h + sum_over devices (fun d => hour_usage (dailyStats d) h).
Proof.
  intros Hh. revert acc. induction devices as [|d l IH]; intros acc; simpl; [lia|].
  rewrite IH, merge_hour_usage by exact Hh. lia.
Qed.

Lemma merge_all_app_hour_usage (app : string) (h : nat) (devices : list string)
    (acc : DailyStats) :
  (h < 24)%nat ->
  app_hour_usage (merge_all dailyStats acc devices) app h
  = app_hour_usage acc app h
    + sum_over devices (fun d => app_hour_usage (dailyStats d) app h).
Proof.
  intros Hh. revert acc. induction devices as [|d l IH]; intros acc; simpl; [lia|].
  rewrite IH, merge_app_hour_usage by exact Hh. lia.
Qed.

Lemma merge_all_app_known (app : string) (devices : list string) (acc : DailyStats) :
  is_Some (appStats (merge_all dailyStats acc devices) !! app)
  <-> is_Some (appStats acc !! app)
      \/ exists d, d ∈ devices /\ is_Some (appStats (dailyStats d) !! app).
Proof.
  revert acc. induction devices as [|d l IH]; intros acc; simpl.
  - split; [auto|]. intros [Hs|(d & Hin & _)]; [exact Hs|inversion Hin].
  - rewrite IH, merge_app_known. split.
    + intros [[Hs|Hs]|(d' & Hin & Hs)]; [auto| |].
      * right. exists d. split; [left|exact Hs].
      * right. exists d'. split; [right; exact Hin|exact Hs].
    + intros [Hs|(d' & Hin & Hs)]; [auto|].
      apply elem_of_cons in Hin as [->|Hin]; [auto|].
      right. exists d'. auto.
Qed.

Lemma merge_all_hours_length (devices : list string) (acc : DailyStats) :
  length (hourlyStats acc) = 24%nat ->
  length (hourlyStats (merge_all dailyStats acc devices)) = 24%nat.
Proof.
  revert acc. induction devices as [|d l IH]; intros acc Hlen; simpl;
    [exact Hlen|].
  apply IH. reflexivity.
Qed.

Lemma merge_all_app (l1 l2 : list string) (acc : DailyStats) :
  merge_all dailyStats acc (l1 ++ l2)
  = merge_all dailyStats (merge_all dailyStats acc l1) l2.
Proof. apply foldl_app. Qed.

End Merge.

(** C4: the all-devices daily result is the element-wise sum of the
    per-device results over the devices listing: the total, every app's
    usage, each of the 24 hourly slots and each app's 24 hourly slots are
    the sums of the devices' values, an app appears in it exactly when some
    device has it, and the histogram has 24 entries.  A device whose result
    is the zero-valued one can be dropped from the listing without changing
    the merge. *)
Theorem all_devices_is_elementwise_sum (devices : list string)
    (dailyStats : string -> DailyStats) :
  let all := dailyStatsAllDevices devices dailyStats in
  totalUsage all = sum_over devices (fun d => totalUsage (dailyStats d))
  /\ (forall app,
        app_usage all app = sum_over devices (fun d => app_usage (dailyStats d) app))
  /\ (forall app,
        is_Some (appStats all !! app)
        <-> exists d, d ∈ devices /\ is_Some (appStats (dailyStats d) !! app))
  /\ length (hourlyStats all) = 24%nat
  /\ (forall h, (h < 24)%nat ->
        hour_usage all h = sum_over devices (fun d => hour_usage (dailyStats d) h))
  /\ (forall app h, (h < 24)%nat ->
        app_hour_usage all app h
        = sum_over devices (fun d => app_hour_usage (dailyStats d) app h))
  /\ (forall before d after,
        devices = before ++ d :: after ->
        dailyStats d = zero_stats ->
        all = dailyStatsAllDevices (before ++ after) dailyStats).
Proof.
  intros all. subst all. unfold dailyStatsAllDevices.
  repeat split.
  - rewrite merge_all_total. reflexivity.
  - intros app. rewrite merge_all_app_usage. reflexivity.
  - intros Hs. apply merge_all_app_known in Hs as [Hs|Hs]; [|exact Hs].
    simpl in Hs. rewrite lookup_empty in Hs. destruct Hs; discriminate.
  - intros Hs. apply merge_all_app_known. right. exact Hs.
  - apply merge_all_hours_length. reflexivity.
  - intros h Hh. rewrite merge_all_hour_usage by exact Hh.
    unfold hour_usage at 1. simpl. unfold zero_hours.
    rewrite lookup_replicate_2 by exact Hh. reflexivity.
  - intros app h Hh. rewrite merge_all_app_hour_usage by exact Hh. reflexivity.
  - intros before d after -> Hzero.
      rewrite !merge_all_app. simpl. rewrite Hzero, merge_zero; [reflexivity|].
    apply merge_all_hours_length. reflexivity.
Qed.

Lemma all_devices_is_elementwise_sum_witness :
  dailyStatsAllDevices ["phone"; "tablet"; "laptop"] fleet_stats
  = dailyStatsAllDevices ["phone"; "laptop"] fleet_stats
  /\ totalUsage (dailyStatsAllDevices ["phone"; "tablet"; "laptop"] fleet_stats)
     = 120
  /\ app_usage (dailyStatsAllDevices ["phone"; "tablet"; "laptop"] fleet_stats)
       "mail" = 120
  /\ hour_usage (dailyStatsAllDevices ["phone"; "tablet"; "laptop"] fleet_stats)
       9 = 90.
Proof.
  pose proof (all_devices_is_elementwise_sum ["phone"; "tablet"; "laptop"]
                fleet_stats)
    as (Htotal & Happ & _ & _ & Hhour & _ & Hdrop).
  split.
  - apply (Hdrop ["phone"] "tablet" ["laptop"]); reflexivity.
  - split; [rewrite Htotal; reflexivity|].
    split; [rewrite Happ; reflexivity|].
    rewrite Hhour; [reflexivity|lia].
Defined.

(** For "summary" the daily route serves the engine's all-devices result:
    with an engine whose all-devices method is the merge above, the answer
    is the merge, shaped like any daily result. *)
Lemma summary_route_serves_merge `{Host} {W M : Type} (env : Env)
    (q : StatsQuery W M) (now : Z) (date_q : option string) (date : Z)
    (devices : list string) (dailyStats : string -> DailyStats) :
  isSummaryAllowed env "summary" = true ->
  resolve_date now date_q = Some date ->
  getDailyStatsForAllDevices q date
  = Returned (Some (dailyStatsAllDevices devices dailyStats)) ->
  get_stats env q now "summary" date_q
  = (ok (shape_daily (Some (dailyStatsAllDevices devices dailyStats))),
     [CallDailyAll date]).
Proof.
  intros Ha Hd Hq.
  rewrite (get_stats_allowed env q now "summary" date_q date Ha Hd).
  simpl. rewrite Hq. reflexivity.
Qed.

(** * Further properties of the configuration and of the other routes *)

(** ** Texts *)

Lemma append_assoc (a b c : string) :
  String.append (String.append a b) c = String.append a (String.append b c).
Proof.
  induction a as [|x r IH]; [reflexivity|].
  change (String.append (String.append (String x r) b) c)
    with (String x (String.append (String.append r b) c)).
  rewrite IH. reflexivity.
Qed.

Lemma append_empty_r (a : string) : String.append a "" = a.
Proof.
  induction a as [|x r IH]; [reflexivity|].
  change (String.append (String x r) "") with (String x (String.append r "")).
  rewrite IH. reflexivity.
Qed.

Lemma append_length (a b : string) :
  String.length (String.append a b) = (String.length a + String.length b)%nat.
Proof.
  induction a as [|x r IH]; [reflexivity|].
  change (String.append (String x r) b) with (String x (String.append r b)).
  cbn [String.length]. rewrite IH. reflexivity.
Qed.

(** Comparisons of bytes, turned into arithmetic. *)
Ltac bytes :=
  unfold space_lead, space1, space2, space3 in *;
  repeat match goal with
         | H : _ = false |- _ => apply not_true_iff_false in H
         | |- _ = false => apply not_true_iff_false; intro
         end;
  repeat match goal with
         | H : context [_ || _ = true] |- _ => rewrite orb_true_iff in H
         | H : context [_ && _ = true] |- _ => rewrite andb_true_iff in H
         | H : context [(_ =? _)%nat = true] |- _ => rewrite Nat.eqb_eq in H
         | H : context [(_ <=? _)%nat = true] |- _ => rewrite Nat.leb_le in H
         | |- context [_ || _ = true] => rewrite orb_true_iff
         | |- context [_ && _ = true] => rewrite andb_true_iff
         | |- context [(_ =? _)%nat = true] => rewrite Nat.eqb_eq
         | |- context [(_ <=? _)%nat = true] => rewrite Nat.leb_le
         end;
  lia.

Lemma strip_space_shorter (s r : string) :
  strip_space s = Some r -> (String.length r < String.length s)%nat.
Proof.
  destruct s as [|c1 [|c2 [|c3 r3]]]; simpl; try discriminate.
  - destruct (space1 c1); [|discriminate]. intros [= <-]. simpl. lia.
  - destruct (space1 c1); [intros [= <-]; simpl; lia|].
    destruct (space2 c1 c2); [|discriminate]. intros [= <-]. simpl. lia.
  - destruct (space1 c1); [intros [= <-]; simpl; lia|].
    destruct (space2 c1 c2); [intros [= <-]; simpl; lia|].
    destruct (space3 c1 c2 c3); [|discriminate]. intros [= <-]. simpl. lia.
Qed.

Lemma trimStart_step (s : string) :
  trimStart s = match strip_space s with
                | Some r => trimStart r
                | None => s
                end.
Proof.
  destruct s as [|c1 [|c2 [|c3 r3]]]; simpl; try reflexivity.
  - destruct (space1 c1); reflexivity.
  - destruct (space1 c1); [reflexivity|]. destruct (space2 c1 c2); reflexivity.
  - destruct (space1 c1); [reflexivity|].
    destruct (space2 c1 c2); [reflexivity|].
    destruct (space3 c1 c2 c3); reflexivity.
Qed.

(** Induction along the white-space characters a text starts with. *)
Lemma strip_space_ind (P : string -> Prop) :
  (forall s, strip_space s = None -> P s) ->
  (forall s r, strip_space s = Some r -> P r -> P s) ->
  forall s, P s.
Proof.
  intros Hnone Hsome s.
  remember (String.length s) as n eqn:Hn. revert s Hn.
  induction n as [n IH] using lt_wf_ind. intros s ->.
  destruct (strip_space s) as [r|] eqn:E; [|apply Hnone, E].
  apply (Hsome s r E). apply (IH (String.length r)); [|reflexivity].
  apply strip_space_shorter, E.
Qed.

Lemma all_space_step (s : string) :
  all_space s = match strip_space s with
                | Some r => all_space r
                | None => match s with EmptyString => true | String _ _ => false end
                end.
Proof.
  unfold all_space. rewrite (trimStart_step s).
  destruct (strip_space s); reflexivity.
Qed.

Lemma all_space_none (s : string) :
  strip_space s = None -> all_space s = true -> s = "".
Proof.
  intros E Hs. rewrite all_space_step, E in Hs. destruct s; [reflexivity|discriminate].
Qed.

Lemma strip_space_lead (c : ascii) (r r' : string) :
  strip_space (String c r) = Some r' -> space_lead c = true.
Proof.
  destruct r as [|c2 [|c3 r3]]; simpl.
  - destruct (space1 c) eqn:E1; [|discriminate]. intros _. bytes.
  - destruct (space1 c) eqn:E1; [intros _; bytes|].
    destruct (space2 c c2) eqn:E2; [|discriminate]. intros _. bytes.
  - destruct (space1 c) eqn:E1; [intros _; bytes|].
    destruct (space2 c c2) eqn:E2; [intros _; bytes|].
    destruct (space3 c c2 c3) eqn:E3; [|discriminate]. intros _. bytes.
Qed.

Lemma all_space_starts (w : string) : all_space w = true -> starts_space w.
Proof.
  intros Hw. destruct w as [|c r]; [exact I|]. simpl.
  rewrite all_space_step in Hw.
  destruct (strip_space (String c r)) as [r'|] eqn:E; [|discriminate].
  apply (strip_space_lead c r r' E).
Qed.

Lemma strip_space_app (p q r : string) :
  strip_space p = Some r -> strip_space (String.append p q) = Some (String.append r q).
Proof.
  destruct p as [|c1 [|c2 [|c3 r3]]]; simpl; try discriminate.
  - destruct (space1 c1); [|discriminate]. intros [= <-]. reflexivity.
  - destruct (space1 c1); [intros [= <-]; reflexivity|].
    destruct (space2 c1 c2); [|discriminate]. intros [= <-]. reflexivity.
  - destruct (space1 c1); [intros [= <-]; reflexivity|].
    destruct (space2 c1 c2); [intros [= <-]; reflexivity|].
    destruct (space3 c1 c2 c3); [|discriminate]. intros [= <-]. reflexivity.
Qed.

(** White space put after a text that does not start with white space
    does not make it start with white space: the first byte of a
    white-space character is no later byte of another. *)
Lemma strip_space_app_none (p w : string) :
  strip_space p = None -> p <> "" -> starts_space w ->
  strip_space (String.append p w) = None.
Proof.
  intros E Hne Hw.
  destruct p as [|c1 [|c2 [|c3 r3]]]; [contradiction| | |].
  - simpl in E. destruct (space1 c1) eqn:E1; [discriminate|].
    change (String.append (String c1 "") w) with (String c1 w).
    destruct w as [|d1 [|d2 w']]; simpl in *; rewrite E1; [reflexivity| |].
    + assert (E2 : space2 c1 d1 = false) by bytes. rewrite E2. reflexivity.
    + assert (E2 : space2 c1 d1 = false) by bytes.
      assert (E3 : space3 c1 d1 d2 = false) by bytes.
      rewrite E2, E3. reflexivity.
  - simpl in E. destruct (space1 c1) eqn:E1; [discriminate|].
    destruct (space2 c1 c2) eqn:E2; [discriminate|].
    change (String.append (String c1 (String c2 "")) w) with (String c1 (String c2 w)).
    destruct w as [|d1 w']; simpl in *; rewrite E1, E2; [reflexivity|].
    assert (E3 : space3 c1 c2 d1 = false) by bytes. rewrite E3. reflexivity.
  - simpl in *. destruct (space1 c1); [discriminate|].
    destruct (space2 c1 c2); [discriminate|].
    destruct (space3 c1 c2 c3); [discriminate|reflexivity].
Qed.

Lemma trimStart_app_space (ws s : string) :
  all_space ws = true -> trimStart (String.append ws s) = trimStart s.
Proof.
  induction ws as [ws E|ws r E IH] using strip_space_ind; intros Hws.
  - rewrite (all_space_none ws E Hws). reflexivity.
  - rewrite (trimStart_step (String.append ws s)), (strip_space_app ws s r E).
    apply IH. rewrite all_space_step, E in Hws. exact Hws.
Qed.

Lemma trimStart_all_space (s : string) : all_space s = true -> trimStart s = "".
Proof. unfold all_space. destruct (trimStart s); [reflexivity|discriminate]. Qed.

(** White space after a text does not change whether the text is all
    white space. *)
Lemma all_space_app (u w : string) :
  all_space w = true -> all_space (String.append u w) = all_space u.
Proof.
  intros Hw. induction u as [u E|u r E IH] using strip_space_ind.
  - destruct u as [|c t]; [exact Hw|].
    rewrite (all_space_step (String.append (String c t) w)), (all_space_step (String c t)).
    rewrite E, (strip_space_app_none _ w E); [reflexivity|discriminate|].
    apply all_space_starts, Hw.
  - rewrite (all_space_step (String.append u w)), (all_space_step u).
    rewrite E, (strip_space_app u w r E). exact IH.
Qed.

Lemma trimStart_app_r (s w : string) :
  all_space w = true ->
  trimStart (String.append s w)
  = if all_space s then "" else String.append (trimStart s) w.
Proof.
  intros Hw. induction s as [s E|s r E IH] using strip_space_ind.
  - destruct s as [|c t]; [apply trimStart_all_space, Hw|].
    rewrite (all_space_step (String c t)), E.
    rewrite (trimStart_step (String.append (String c t) w)), (trimStart_step (String c t)).
    rewrite E, (strip_space_app_none _ w E); [reflexivity|discriminate|].
    apply all_space_starts, Hw.
  - rewrite (trimStart_step (String.append s w)), (trimStart_step s), (all_space_step s).
    rewrite E, (strip_space_app s w r E). exact IH.
Qed.

Lemma trimEnd_all_space (s : string) : all_space s = true -> trimEnd s = "".
Proof. intros E. destruct s as [|c r]; [reflexivity|]. simpl trimEnd. rewrite E. reflexivity. Qed.

Lemma trimEnd_unfold (c : ascii) (r : string) :
  trimEnd (String c r)
  = if all_space (String c r) then "" else String c (trimEnd r).
Proof. reflexivity. Qed.

Lemma trimEnd_app_space (s ws : string) :
  all_space ws = true -> trimEnd (String.append s ws) = trimEnd s.
Proof.
  intros Hws. induction s as [|c r IH].
  - apply trimEnd_all_space, Hws.
  - change (String.append (String c r) ws) with (String c (String.append r ws)).
    rewrite !trimEnd_unfold.
    change (String c (String.append r ws)) with (String.append (String c r) ws).
    rewrite (all_space_app _ ws Hws), IH. reflexivity.
Qed.

(** White space on either side does not change what [trim] returns. *)
Lemma trim_padding (ws s ws' : string) :
  all_space ws = true -> all_space ws' = true ->
  trim (String.append ws (String.append s ws')) = trim s.
Proof.
  intros Hws Hws'. unfold trim.
  rewrite (trimStart_app_space ws _ Hws), (trimStart_app_r s ws' Hws').
  destruct (all_space s) eqn:E.
  - rewrite (trimStart_all_space s E). reflexivity.
  - apply trimEnd_app_space, Hws'.
Qed.

Lemma trim_all_space (s : string) : all_space s = true -> trim s = "".
Proof. intros E. unfold trim. rewrite (trimStart_all_space s E). reflexivity. Qed.

Lemma lower_char_idem (c : ascii) : lower_char (lower_char c) = lower_char c.
Proof. destruct c as [[] [] [] [] [] [] [] []]; reflexivity. Qed.

Lemma lower_char_other (c : ascii) :
  (byte_of c < 65 \/ 90 < byte_of c)%nat -> lower_char c = c.
Proof.
  unfold lower_char, byte_of. intros Hc.
  destruct ((65 <=? nat_of_ascii c)%nat && (nat_of_ascii c <=? 90)%nat) eqn:E;
    [|reflexivity].
  apply andb_true_iff in E as [E1 E2].
  apply Nat.leb_le in E1. apply Nat.leb_le in E2. lia.
Qed.

Lemma toLowerCase_idem (s : string) : toLowerCase (toLowerCase s) = toLowerCase s.
Proof.
  induction s as [|c r IH]; simpl; [reflexivity|].
  rewrite lower_char_idem, IH. reflexivity.
Qed.

Lemma toLowerCase_empty (s : string) : toLowerCase s = "" <-> s = "".
Proof. destruct s; simpl; split; intros E; congruence. Qed.

Lemma toLowerCase_app (a b : string) :
  toLowerCase (String.append a b) = String.append (toLowerCase a) (toLowerCase b).
Proof.
  induction a as [|c r IH]; simpl; [reflexivity|]. rewrite IH. reflexivity.
Qed.

(** No byte of a white-space character is a capital letter. *)
Lemma strip_space_lower (s r : string) :
  strip_space s = Some r ->
  exists p, s = String.append p r /\ toLowerCase p = p.
Proof.
  destruct s as [|c1 [|c2 [|c3 r3]]]; simpl; try discriminate.
  - destruct (space1 c1) eqn:E1; [|discriminate]. intros [= <-].
    exists (String c1 ""). split; [reflexivity|]. simpl.
    rewrite (lower_char_other c1) by bytes. reflexivity.
  - destruct (space1 c1) eqn:E1.
    { intros [= <-]. exists (String c1 ""). split; [reflexivity|]. simpl.
      rewrite (lower_char_other c1) by bytes. reflexivity. }
    destruct (space2 c1 c2) eqn:E2; [|discriminate]. intros [= <-].
    exists (String c1 (String c2 "")). split; [reflexivity|]. simpl.
    rewrite (lower_char_other c1), (lower_char_other c2) by bytes. reflexivity.
  - destruct (space1 c1) eqn:E1.
    { intros [= <-]. exists (String c1 ""). split; [reflexivity|]. simpl.
      rewrite (lower_char_other c1) by bytes. reflexivity. }
    destruct (space2 c1 c2) eqn:E2.
    { intros [= <-]. exists (String c1 (String c2 "")). split; [reflexivity|].
      simpl. rewrite (lower_char_other c1), (lower_char_other c2) by bytes.
      reflexivity. }
    destruct (space3 c1 c2 c3) eqn:E3; [|discriminate]. intros [= <-].
    exists (String c1 (String c2 (String c3 ""))). split; [reflexivity|]. simpl.
    rewrite (lower_char_other c1), (lower_char_other c2), (lower_char_other c3)
      by bytes.
    reflexivity.
Qed.

Lemma toLowerCase_all_space (s : string) : all_space s = true -> toLowerCase s = s.
Proof.
  induction s as [s E|s r E IH] using strip_space_ind; intros Hs.
  - rewrite (all_space_none s E Hs). reflexivity.
  - rewrite all_space_step, E in Hs.
    destruct (strip_space_lower s r E) as (p & -> & Hp).
    rewrite toLowerCase_app, Hp, (IH Hs). reflexivity.
Qed.

(** *** What [trim] leaves *)

Lemma trimStart_length (s : string) :
  (String.length (trimStart s) <= String.length s)%nat.
Proof.
  induction s as [s E|s r E IH] using strip_space_ind;
    rewrite trimStart_step, E; [lia|].
  pose proof (strip_space_shorter s r E). lia.
Qed.

Lemma trimEnd_length (s : string) :
  (String.length (trimEnd s) <= String.length s)%nat.
Proof.
  induction s as [|c r IH]; [simpl; lia|]. rewrite trimEnd_unfold.
  destruct (all_space (String c r)); simpl; lia.
Qed.

(** What [trimStart] returns does not start with white space. *)
Lemma trimStart_fixed (s : string) : trimStart (trimStart s) = trimStart s.
Proof.
  induction s as [s E|s r E IH] using strip_space_ind.
  - rewrite (trimStart_step s), E. rewrite (trimStart_step s), E. reflexivity.
  - rewrite (trimStart_step s), E. exact IH.
Qed.

(** What [trimEnd] cuts off is white space. *)
Lemma trimEnd_split (s : string) :
  exists w, s = String.append (trimEnd s) w /\ all_space w = true.
Proof.
  induction s as [|c r IH]; [exists ""; split; reflexivity|].
  rewrite trimEnd_unfold. destruct (all_space (String c r)) eqn:E.
  - exists (String c r). split; [reflexivity|exact E].
  - destruct IH as (w & Hr & Hw). exists w. split; [|exact Hw].
    change (String.append (String c (trimEnd r)) w)
      with (String c (String.append (trimEnd r) w)).
    rewrite <- Hr. reflexivity.
Qed.

Lemma trimEnd_fixed (s : string) : trimEnd (trimEnd s) = trimEnd s.
Proof.
  induction s as [|c r IH]; [reflexivity|].
  rewrite trimEnd_unfold. destruct (all_space (String c r)) eqn:E; [reflexivity|].
  rewrite trimEnd_unfold, IH.
  destruct (trimEnd_split r) as (w & Hr & Hw).
  assert (E' : all_space (String c (trimEnd r)) = all_space (String c r)).
  { rewrite Hr at 2.
    change (String c (String.append (trimEnd r) w))
      with (String.append (String c (trimEnd r)) w).
    symmetry. apply all_space_app, Hw. }
  rewrite E', E. reflexivity.
Qed.

(** A text that does not start with white space keeps that when its end
    is cut. *)
Lemma trimStart_trimEnd (s : string) :
  trimStart s = s -> trimStart (trimEnd s) = trimEnd s.
Proof.
  intros Hs. destruct (trimEnd_split s) as (w & Hsplit & Hw).
  destruct (strip_space (trimEnd s)) as [r|] eqn:E.
  - exfalso. pose proof (strip_space_app _ w r E) as Happ.
    rewrite <- Hsplit in Happ.
    rewrite trimStart_step, Happ in Hs.
    pose proof (trimStart_length (String.append r w)) as Hlen.
    rewrite Hs in Hlen. pose proof (strip_space_shorter s _ Happ). lia.
  - rewrite trimStart_step, E. reflexivity.
Qed.

(** [trim] leaves no white space at the start and none at the end. *)
Lemma trim_clean (s : string) :
  (forall w r, trim s = String.append w r -> all_space w = true -> w = "")
  /\ (forall p w, trim s = String.append p w -> all_space w = true -> w = "").
Proof.
  assert (Hstart : trimStart (trim s) = trim s).
  { unfold trim. apply trimStart_trimEnd, trimStart_fixed. }
  assert (Hend : trimEnd (trim s) = trim s) by apply trimEnd_fixed.
  split.
  - intros w r Ht Hw. rewrite Ht, (trimStart_app_space w r Hw) in Hstart.
    pose proof (trimStart_length r) as Hlen. rewrite Hstart in Hlen.
    rewrite append_length in Hlen. destruct w; [reflexivity|simpl in Hlen; lia].
  - intros p w Ht Hw. rewrite Ht, (trimEnd_app_space p w Hw) in Hend.
    pose proof (trimEnd_length p) as Hlen. rewrite Hend in Hlen.
    rewrite append_length in Hlen. destruct w; [reflexivity|simpl in Hlen; lia].
Qed.

Lemma strip_space_ascii (c : ascii) (r : string) :
  (byte_of c < 128)%nat -> space1 c = false -> strip_space (String c r) = None.
Proof.
  intros Hc E1. destruct r as [|c2 [|c3 r3]]; simpl; rewrite E1; [reflexivity| |].
  - assert (E2 : space2 c c2 = false) by bytes. rewrite E2. reflexivity.
  - assert (E2 : space2 c c2 = false) by bytes.
    assert (E3 : space3 c c2 c3 = false) by bytes.
    rewrite E2, E3. reflexivity.
Qed.

(** ** [parseBoolean] *)

Lemma parseBoolean_string (s : string) (d : bool) :
  s <> "" ->
  parseBoolean (JStr s) d
  = let str := trim (toLowerCase s) in
    String.eqb str "true" || String.eqb str "1"
    || String.eqb str "yes" || String.eqb str "on".
Proof.
  intros Hne. simpl. destruct (String.eqb s "") eqn:E; [|reflexivity].
  apply String.eqb_eq in E. contradiction.
Qed.

Lemma app_not_empty (a s b : string) :
  s <> "" -> String.append a (String.append s b) <> "".
Proof.
  intros Hne E. destruct a; simpl in E; [|discriminate].
  destruct s; [contradiction|discriminate].
Qed.

(** X1: for a text that is not empty, [parseBoolean] ignores the default
    value, the case of the letters and white space around the text; a text
    of white space only is read as false, whatever the default. *)
Theorem parseBoolean_text_insensitive (s ws ws' : string) (d d' : bool) :
  s <> "" ->
  all_space ws = true ->
  all_space ws' = true ->
  parseBoolean (JStr s) d = parseBoolean (JStr s) d'
  /\ parseBoolean (JStr (toLowerCase s)) d = parseBoolean (JStr s) d
  /\ parseBoolean (JStr (String.append ws (String.append s ws'))) d
     = parseBoolean (JStr s) d
  /\ (ws <> "" -> parseBoolean (JStr ws) d = false).
Proof.
  intros Hne Hws Hws'. repeat split.
  - rewrite !parseBoolean_string by exact Hne. reflexivity.
  - rewrite !parseBoolean_string; [|exact Hne|rewrite toLowerCase_empty; exact Hne].
    cbv zeta. rewrite toLowerCase_idem. reflexivity.
  - rewrite !parseBoolean_string; [|exact Hne|apply app_not_empty, Hne].
    cbv zeta. rewrite !toLowerCase_app.
    rewrite (toLowerCase_all_space ws Hws), (toLowerCase_all_space ws' Hws').
    rewrite (trim_padding ws _ ws' Hws Hws'). reflexivity.
  - intros Hne'. rewrite parseBoolean_string by exact Hne'.
    cbv zeta. rewrite (toLowerCase_all_space ws Hws), (trim_all_space ws Hws).
    reflexivity.
Qed.

Lemma parseBoolean_text_insensitive_witness :
  parseBoolean (JStr "Yes") true = parseBoolean (JStr "Yes") false
  /\ parseBoolean (JStr (toLowerCase "Yes")) true = parseBoolean (JStr "Yes") true
  /\ parseBoolean (JStr (String.append " " (String.append "Yes" "  "))) true
     = parseBoolean (JStr "Yes") true
  /\ parseBoolean (JStr " ") true = false.
Proof.
  pose proof (parseBoolean_text_insensitive "Yes" " " "  " true false)
    as (H1 & H2 & H3 & H4); [discriminate|reflexivity|reflexivity|].
  split; [exact H1|]. split; [exact H2|]. split; [exact H3|].
  apply H4. discriminate.
Defined.

(** ** The configuration of [index.js] and [GET /pageConfig] *)

Lemma or_number_cases (n : option Num) (fallback : Z) :
  or_number n fallback = Int fallback
  \/ (n = Some (or_number n fallback) /\ or_number n fallback <> Int 0).
Proof.
  destruct n as [[k|negative]|]; simpl; [|right; split; [reflexivity|discriminate]|auto].
  destruct (k =? 0) eqn:E; [auto|]. right. split; [reflexivity|].
  apply Z.eqb_neq in E. congruence.
Qed.

(** X2: the time-zone offset the services are started with is never 0:
    when [parseInt] reads a number other than 0 from
    [DEFAULT_TIMEZONE_OFFSET], that number is the offset; when the variable
    is unset, is not a number or reads as 0, the offset is 8. *)
Theorem timezone_offset_never_zero (pe : ProcessEnv) :
  timezoneOffset pe <> Int 0
  /\ (forall s n, pe !! "DEFAULT_TIMEZONE_OFFSET" = Some s ->
        parseInt_str s = Some n -> n <> Int 0 ->
        timezoneOffset pe = n)
  /\ (forall s, pe !! "DEFAULT_TIMEZONE_OFFSET" = Some s ->
        parseInt_str s = None \/ parseInt_str s = Some (Int 0) ->
        timezoneOffset pe = Int 8)
  /\ (pe !! "DEFAULT_TIMEZONE_OFFSET" = None -> timezoneOffset pe = Int 8).
Proof.
  unfold timezoneOffset. repeat split.
  - destruct (or_number_cases (parseInt (pe !! "DEFAULT_TIMEZONE_OFFSET")) 8)
      as [->|[_ Hnz]]; [discriminate|exact Hnz].
  - intros s n -> E Hnz. simpl. rewrite E.
    destruct n as [k|negative]; simpl; [|reflexivity].
    destruct (k =? 0) eqn:Z0; [|reflexivity].
    apply Z.eqb_eq in Z0. congruence.
  - intros s -> [E|E]; simpl; rewrite E; reflexivity.
  - intros ->. reflexivity.
Qed.

Lemma timezone_offset_never_zero_witness :
  timezoneOffset {[ "DEFAULT_TIMEZONE_OFFSET" := String "194" (String "160" "-5") ]}
  = Int (-5)
  /\ timezoneOffset {[ "DEFAULT_TIMEZONE_OFFSET" := "0" ]} = Int 8
  /\ timezoneOffset {[ "HOST" := "localhost" ]} = Int 8.
Proof.
  split; [|split].
  - apply (proj1 (proj2 (timezone_offset_never_zero
                           {[ "DEFAULT_TIMEZONE_OFFSET"
                              := String "194" (String "160" "-5") ]}))
             (String "194" (String "160" "-5")));
      [reflexivity|reflexivity|discriminate].
  - apply (proj1 (proj2 (proj2 (timezone_offset_never_zero
                                  {[ "DEFAULT_TIMEZONE_OFFSET" := "0" ]}))) "0");
      [reflexivity|right; reflexivity].
  - apply (proj2 (proj2 (proj2 (timezone_offset_never_zero
                                  {[ "HOST" := "localhost" ]})))).
    reflexivity.
Defined.

(** X3: the offset [GET /pageConfig] reports is the offset the services
    were started with exactly when [DEFAULT_TIMEZONE_OFFSET] is unset or
    [parseInt] reads from it a finite number other than 0; for "0" the page
    is told 0 and the services use 8, and for a text that is not a number
    the page is told [null]. *)
Theorem page_offset_agreement (pe : ProcessEnv) :
  exists page,
    get_pageConfig pe = {| status := 200; body := Payload page |}
    /\ ((exists n, tzOffset page = Some n /\ timezoneOffset pe = Int n)
        <-> (pe !! "DEFAULT_TIMEZONE_OFFSET" = None
             \/ exists s n, pe !! "DEFAULT_TIMEZONE_OFFSET" = Some s
                  /\ parseInt_str s = Some (Int n) /\ n <> 0))
    /\ (forall s, pe !! "DEFAULT_TIMEZONE_OFFSET" = Some s ->
          parseInt_str s = Some (Int 0) ->
          tzOffset page = Some 0 /\ timezoneOffset pe = Int 8)
    /\ (forall s, pe !! "DEFAULT_TIMEZONE_OFFSET" = Some s ->
          parseInt_str s = None ->
          tzOffset page = None /\ timezoneOffset pe = Int 8).
Proof.
  eexists. split; [reflexivity|].
  simpl. unfold page_tzOffset, timezoneOffset.
  destruct (pe !! "DEFAULT_TIMEZONE_OFFSET") as [s|]; simpl.
  - split; [|split; intros s' [= <-] E; rewrite E; split; reflexivity].
    destruct (parseInt_str s) as [[n|negative]|] eqn:E; simpl.
    + destruct (n =? 0) eqn:Z0.
      * apply Z.eqb_eq in Z0. subst n. split.
        -- intros (n & [= <-] & Hn). discriminate.
        -- intros [Hn|(s' & n & [= <-] & Hp & Hnz)]; [discriminate|].
           rewrite E in Hp. congruence.
      * split; [|intros _; exists n; split; reflexivity].
        intros _. right. exists s, n.
        split; [reflexivity|]. split; [exact E|]. apply Z.eqb_neq, Z0.
    + split; [intros (n & Hn & _); discriminate|].
      intros [Hn|(s' & n & [= <-] & Hp & _)]; [discriminate|].
      rewrite E in Hp. discriminate.
    + split; [intros (n & Hn & _); discriminate|].
      intros [Hn|(s' & n & [= <-] & Hp & _)]; [discriminate|].
      rewrite E in Hp. discriminate.
  - split; [|split; intros s' Hs; discriminate].
    split; [auto|]. intros _. exists 8. split; reflexivity.
Qed.

Lemma page_offset_agreement_witness :
  (exists n,
     json_number (page_tzOffset {[ "DEFAULT_TIMEZONE_OFFSET" := "-5" ]}) = Some n
     /\ timezoneOffset {[ "DEFAULT_TIMEZONE_OFFSET" := "-5" ]} = Int n)
  /\ json_number (page_tzOffset {[ "DEFAULT_TIMEZONE_OFFSET" := "0" ]}) = Some 0
  /\ timezoneOffset {[ "DEFAULT_TIMEZONE_OFFSET" := "0" ]} = Int 8.
Proof.
  destruct (page_offset_agreement {[ "DEFAULT_TIMEZONE_OFFSET" := "-5" ]})
    as (page & Hpage & Hiff & _).
  destruct (page_offset_agreement {[ "DEFAULT_TIMEZONE_OFFSET" := "0" ]})
    as (page0 & Hpage0 & _ & Hzero & _).
  injection Hpage as <-. injection Hpage0 as <-.
  split.
  - apply Hiff. right. exists "-5", (-5).
    split; [reflexivity|]. split; [reflexivity|discriminate].
  - apply (Hzero "0"); reflexivity.
Defined.

(** X4: the [WEB_SUMMARY] flag [GET /pageConfig] reports agrees with what
    the statistics routes do for "summary" exactly when the variable is set
    to a text that is not empty; when it is unset or empty the page is told
    the summary is on while every query for it is answered 403. *)
Theorem page_summary_flag_agreement `{Host} {W M : Type} (pe : ProcessEnv)
    (q : StatsQuery W M) (now : Z) (date_q : option string) :
  (WEB_SUMMARY (page_config pe) = isSummaryAllowed (env_of pe) "summary"
   <-> exists s, pe !! "WEB_SUMMARY" = Some s /\ s <> "")
  /\ (pe !! "WEB_SUMMARY" = None \/ pe !! "WEB_SUMMARY" = Some "" ->
      WEB_SUMMARY (page_config pe) = true
      /\ get_stats (env_of pe) q now "summary" date_q
         = (fail 403 "Summary is disabled", [])).
Proof.
  split.
  - rewrite summary_allowed_flag. unfold page_config, flag, env_of. simpl.
    destruct (pe !! "WEB_SUMMARY") as [s|]; simpl.
    + destruct (String.eqb s "") eqn:E.
      * apply String.eqb_eq in E. subst s. split; [discriminate|].
        intros (s & [= <-] & Hne). contradiction.
      * split; [|reflexivity]. intros _. exists s. split; [reflexivity|].
        intros ->. discriminate.
    + split; [discriminate|]. intros (s & Hs & _). discriminate.
  - intros Hunset. split.
    + unfold page_config, flag. simpl. destruct Hunset as [-> | ->]; reflexivity.
    + apply get_stats_forbidden. apply web_summary_unset. exact Hunset.
Qed.

Lemma page_summary_flag_agreement_witness :
  WEB_SUMMARY (page_config (∅ : ProcessEnv)) = true
  /\ get_stats (env_of ∅) engine 5000 "summary" None
     = (fail 403 "Summary is disabled", [])
  /\ WEB_SUMMARY (page_config {[ "WEB_SUMMARY" := "off" ]})
     = isSummaryAllowed (env_of {[ "WEB_SUMMARY" := "off" ]}) "summary".
Proof.
  pose proof (page_summary_flag_agreement ∅ engine 5000 None) as [_ Hunset].
  pose proof (page_summary_flag_agreement {[ "WEB_SUMMARY" := "off" ]} engine
                5000 None) as [Hiff _].
  destruct Hunset as [Hpage Hroute]; [left; reflexivity|].
  split; [exact Hpage|]. split; [exact Hroute|].
  apply Hiff. exists "off". split; [reflexivity|discriminate].
Defined.

(** X5: when the summary service is switched off ([AI_SUMMARY_ENABLED] is
    exactly "false"), [GET /pageConfig] reports it off; the page can report
    it off while the service is on, as for "0", but never the other way
    round. *)
Theorem ai_flag_one_sided (pe : ProcessEnv) :
  (enabled pe = false -> WEB_AI_SUMMARY (page_config pe) = false)
  /\ (WEB_AI_SUMMARY (page_config pe) = true -> enabled pe = true)
  /\ (pe !! "AI_SUMMARY_ENABLED" = Some "0" ->
      enabled pe = true /\ WEB_AI_SUMMARY (page_config pe) = false).
Proof.
  assert (Hoff : enabled pe = false -> WEB_AI_SUMMARY (page_config pe) = false).
  { unfold enabled, page_config, flag. simpl.
    destruct (pe !! "AI_SUMMARY_ENABLED") as [s|]; simpl; [|discriminate].
    intros E. apply negb_false_iff in E. apply String.eqb_eq in E. subst s.
    reflexivity. }
  split; [exact Hoff|]. split.
  - intros Hon. destruct (enabled pe) eqn:E; [reflexivity|].
    rewrite (Hoff eq_refl) in Hon. discriminate.
  - intros E. unfold enabled, page_config, flag. simpl. rewrite E.
    split; reflexivity.
Qed.

Lemma ai_flag_one_sided_witness :
  WEB_AI_SUMMARY (page_config {[ "AI_SUMMARY_ENABLED" := "false" ]}) = false
  /\ enabled {[ "AI_SUMMARY_ENABLED" := "0" ]} = true
  /\ WEB_AI_SUMMARY (page_config {[ "AI_SUMMARY_ENABLED" := "0" ]}) = false.
Proof.
  split.
  - apply (proj1 (ai_flag_one_sided {[ "AI_SUMMARY_ENABLED" := "false" ]})).
    reflexivity.
  - apply (proj2 (proj2 (ai_flag_one_sided {[ "AI_SUMMARY_ENABLED" := "0" ]}))).
    reflexivity.
Defined.

Lemma unescape_double (s : string) : unescape_dollars (double_dollars s) = s.
Proof.
  induction s as [|c r IH]; [reflexivity|].
  destruct (Ascii.eqb c "$") eqn:E.
  - apply Ascii.eqb_eq in E. subst c. simpl. rewrite IH. reflexivity.
  - assert (Hd : double_dollars (String c r) = String c (double_dollars r)).
    { destruct c as [[] [] [] [] [] [] [] []]; try reflexivity; discriminate. }
    rewrite Hd.
    assert (Hu : forall t, unescape_dollars (String c t) = String c (unescape_dollars t)).
    { intros t.
      destruct c as [[] [] [] [] [] [] [] []]; try reflexivity; discriminate. }
    rewrite Hu, IH. reflexivity.
Qed.

Lemma unescape_no_dollar (s : string) :
  occurs "$" s = false -> unescape_dollars s = s.
Proof.
  induction s as [|c r IH]; [reflexivity|].
  simpl occurs. intros E. apply orb_false_iff in E as [Hc Hr].
  assert (Hu : unescape_dollars (String c r) = String c (unescape_dollars r)).
  { destruct c as [[] [] [] [] [] [] [] []]; try reflexivity; discriminate. }
  rewrite Hu, (IH Hr). reflexivity.
Qed.

(** X6: a password written into [ADMIN_PASSWD] with every dollar sign
    doubled is read back as the password itself, and a value without a
    dollar sign is taken as it is; an unset variable gives the empty
    password. *)
Theorem admin_password_round_trip (pe : ProcessEnv) (password : string) :
  (pe !! "ADMIN_PASSWD" = Some (double_dollars password) ->
   ADMIN_PASSWD pe = password)
  /\ (pe !! "ADMIN_PASSWD" = Some password -> occurs "$" password = false ->
      ADMIN_PASSWD pe = password)
  /\ (pe !! "ADMIN_PASSWD" = None -> ADMIN_PASSWD pe = "").
Proof.
  unfold ADMIN_PASSWD, or_string. repeat split.
  - intros ->. rewrite unescape_double.
    destruct (String.eqb password "") eqn:E; [|reflexivity].
    apply String.eqb_eq in E. congruence.
  - intros -> Hno. rewrite (unescape_no_dollar password Hno).
    destruct (String.eqb password "") eqn:E; [|reflexivity].
    apply String.eqb_eq in E. congruence.
  - intros ->. reflexivity.
Qed.

Lemma admin_password_round_trip_witness :
  ADMIN_PASSWD {[ "ADMIN_PASSWD" := "pa$$$$w0rd$$" ]} = "pa$$w0rd$"
  /\ ADMIN_PASSWD {[ "ADMIN_PASSWD" := "hunter2" ]} = "hunter2".
Proof.
  split.
  - apply (proj1 (admin_password_round_trip
                    {[ "ADMIN_PASSWD" := "pa$$$$w0rd$$" ]} "pa$$w0rd$")).
    reflexivity.
  - apply (proj1 (proj2 (admin_password_round_trip
                           {[ "ADMIN_PASSWD" := "hunter2" ]} "hunter2")));
      reflexivity.
Defined.

(** ** More on the ingestion and statistics routes *)

Lemma SECRET_not_empty (env : Env) : SECRET env <> "".
Proof.
  unfold SECRET. destruct (env_SECRET env) as [s|]; [|discriminate].
  destruct (String.eqb s "") eqn:E; [discriminate|].
  intros ->. discriminate.
Qed.

Lemma falsy_is_not_secret (env : Env) (v : JsVal) :
  truthy v = false -> strict_eq_str v (SECRET env) = false.
Proof.
  destruct v as [| |b|n|s]; simpl; try reflexivity.
  intros E. apply negb_false_iff, String.eqb_eq in E. subst s.
  apply String.eqb_neq. intros E. symmetry in E. exact (SECRET_not_empty env E).
Qed.

(** X7: [POST /] with a missing or empty secret is answered 401 whatever
    the environment, because the configured secret is never empty; a
    request changes the recorder only if its secret is the configured one
    and it names a device; and when [SECRET] is unset or empty the secret
    "default-secret-key" is the one that is let in. *)
Theorem ingestion_needs_secret `{Host} (env : Env) (t : Timing)
    (durable : option string) (b : IngestBody) (st : State) :
  (truthy (secret b) = false ->
     post_root env t durable b st = (fail 401 "Invalid secret", st))
  /\ (snd (post_root env t durable b st) <> st ->
      secret b = JStr (SECRET env) /\ truthy (device b) = true)
  /\ (env_SECRET env = None \/ env_SECRET env = Some "" ->
      (status (fst (post_root env t durable b st)) = 401
       <-> secret b <> JStr "default-secret-key")).
Proof.
  split; [|split].
  - intros Hfalsy. unfold post_root.
    rewrite (falsy_is_not_secret env _ Hfalsy). reflexivity.
  - intros Hchanged. unfold post_root in Hchanged.
    destruct (strict_eq_str (secret b) (SECRET env)) eqn:Hs; simpl in Hchanged;
      [|contradiction].
    destruct (truthy (device b)) eqn:Hd; simpl in Hchanged; [|contradiction].
    split; [|reflexivity].
    unfold strict_eq_str in Hs. destruct (secret b); try discriminate.
    apply String.eqb_eq in Hs. subst. reflexivity.
  - intros Hunset.
    assert (Hdef : SECRET env = "default-secret-key").
    { unfold SECRET. destruct Hunset as [-> | ->]; reflexivity. }
    unfold post_root. rewrite Hdef.
    destruct (strict_eq_str (secret b) "default-secret-key") eqn:Hs; simpl.
    + unfold strict_eq_str in Hs. destruct (secret b) as [| | | |s]; try discriminate.
      apply String.eqb_eq in Hs. subst s.
      assert (Hne : forall r : Response IngestOk * State,
                status (fst r) <> 401 ->
                (status (fst r) = 401 <-> JStr "default-secret-key" <> JStr "default-secret-key"))
        by (intros r Hr; split; intros E; [contradiction|congruence]).
      apply Hne.
      destruct (negb (truthy (device b))); [discriminate|].
      destruct (ingest_battery t b st) as [st1 [e|]]; [discriminate|].
      destruct (is_defined (app_name b) || is_defined (running_flag b));
        [|discriminate].
      destruct (not_false (running_flag b) && negb (truthy (app_name b)));
        [discriminate|].
      destruct (recordUsage durable st1 (device b) (app_name b)
                  (running_flag b) (at_usage t)) as [st2 [e|]]; discriminate.
    + split; [|reflexivity]. intros _ E. rewrite E in Hs. simpl in Hs.
      discriminate.
Qed.

Lemma ingestion_needs_secret_witness :
  post_root env_default timing None request_no_secret (init 10)
  = (fail 401 "Invalid secret", init 10)
  /\ status (fst (post_root env_default timing None request_mail (init 10))) <> 401.
Proof.
  split.
  - apply (proj1 (ingestion_needs_secret env_default timing None _ (init 10))).
    reflexivity.
  - intros E.
    apply (proj1 (proj2 (proj2 (ingestion_needs_secret env_default timing None
                                  request_mail (init 10)))
                    (or_introl eq_refl))) in E.
    apply E. reflexivity.
Defined.

(** X17: an event that says [running = false] needs no app name: with the
    right secret and a device it is never answered 400, whatever its
    [app_name] is, and the recorder is handed the event as it came. *)
Theorem stop_event_needs_no_app `{Host} (env : Env) (t : Timing)
    (durable : option string) (b : IngestBody) (st : State) :
  strict_eq_str (secret b) (SECRET env) = true ->
  truthy (device b) = true ->
  running_flag b = JBool false ->
  status (fst (post_root env t durable b st)) <> 400
  /\ snd (post_root env t durable b st)
     = fst (recordUsage durable (fst (ingest_battery t b st)) (device b)
              (app_name b) (JBool false) (at_usage t)).
Proof.
  intros Hs Hd Hrun.
  rewrite (post_root_accepted env t durable b st Hs Hd). cbv zeta.
  rewrite Hrun. simpl not_false. simpl is_defined.
  rewrite orb_true_r. simpl andb.
  destruct (recordUsage durable (fst (ingest_battery t b st)) (device b)
              (app_name b) (JBool false) (at_usage t)) as [st2 [e|]];
    split; try reflexivity; discriminate.
Qed.

Lemma stop_event_needs_no_app_witness :
  status (fst (post_root env_default timing None request_stop busy_state)) <> 400
  /\ session_state (JStr "phone")
       (sessions (snd (post_root env_default timing None request_stop busy_state)))
     = Open (JStr "mail") 7.
Proof.
  destruct (stop_event_needs_no_app env_default timing None request_stop
              busy_state eq_refl eq_refl eq_refl) as [Hstatus Hstate].
  split; [exact Hstatus|]. rewrite Hstate. reflexivity.
Defined.

Lemma eqb_not_summary (deviceId : string) :
  deviceId <> "summary" -> String.eqb deviceId "summary" = false.
Proof. intros Hne. apply String.eqb_neq, Hne. Qed.

(** X8: for a device identifier other than "summary" the three statistics
    routes do not depend on the environment: they never answer 403, and
    every engine call they make is the per-device one for that identifier. *)
Theorem device_queries_ignore_summary_flag `{Host} {W M : Type} (env env' : Env)
    (q : StatsQuery W M) (now : Z) (deviceId : string)
    (date_q off_q app_q : option string) :
  deviceId <> "summary" ->
  get_stats env q now deviceId date_q = get_stats env' q now deviceId date_q
  /\ get_weekly env q deviceId off_q app_q = get_weekly env' q deviceId off_q app_q
  /\ get_monthly env q deviceId off_q app_q = get_monthly env' q deviceId off_q app_q
  /\ status (fst (get_stats env q now deviceId date_q)) <> 403
  /\ status (fst (get_weekly env q deviceId off_q app_q)) <> 403
  /\ status (fst (get_monthly env q deviceId off_q app_q)) <> 403
  /\ (forall c,
        c ∈ snd (get_stats env q now deviceId date_q)
            ++ snd (get_weekly env q deviceId off_q app_q)
            ++ snd (get_monthly env q deviceId off_q app_q) ->
        individual c = Some deviceId).
Proof.
  intros Hne.
  pose proof (summary_allowed_other env deviceId Hne) as Ha.
  pose proof (summary_allowed_other env' deviceId Hne) as Ha'.
  pose proof (eqb_not_summary deviceId Hne) as Hd.
  rewrite !(get_weekly_allowed env q deviceId off_q app_q Ha),
          !(get_weekly_allowed env' q deviceId off_q app_q Ha'),
          !(get_monthly_allowed env q deviceId off_q app_q Ha),
          !(get_monthly_allowed env' q deviceId off_q app_q Ha').
  unfold weekly_query, monthly_query. rewrite Hd. simpl.
  assert (Hstats : get_stats env q now deviceId date_q
                   = get_stats env' q now deviceId date_q).
  { unfold get_stats. rewrite Ha, Ha'. reflexivity. }
  split; [exact Hstats|]. split; [reflexivity|]. split; [reflexivity|].
  destruct (resolve_date now date_q) as [date|] eqn:Hdate.
  - rewrite !(get_stats_allowed env q now deviceId date_q date Ha Hdate).
    unfold daily_query. rewrite Hd. simpl.
    split; [destruct (getDailyStats q deviceId date); discriminate|].
    split; [destruct (getWeeklyAppStats q deviceId _ _); discriminate|].
    split; [destruct (getMonthlyAppStats q deviceId _ _); discriminate|].
    intros c. rewrite !elem_of_cons.
    intros [->|[->|[->|Hin]]]; try reflexivity. inversion Hin.
  - unfold get_stats. rewrite Ha, Hdate. simpl.
    split; [discriminate|].
    split; [destruct (getWeeklyAppStats q deviceId _ _); discriminate|].
    split; [destruct (getMonthlyAppStats q deviceId _ _); discriminate|].
    intros c. rewrite !elem_of_cons.
    intros [->|[->|Hin]]; try reflexivity. inversion Hin.
Qed.

Lemma device_queries_ignore_summary_flag_witness :
  get_stats env_default engine 5000 "phone" (Some "1970-01-01")
  = get_stats env_summary_on engine 5000 "phone" (Some "1970-01-01")
  /\ status (fst (get_weekly env_default engine "phone" (Some "-1") None)) <> 403.
Proof.
  pose proof (device_queries_ignore_summary_flag env_default env_summary_on
                engine 5000 "phone" (Some "1970-01-01") (Some "-1") None)
    as (Hstats & _ & _ & _ & Hweekly & _); [discriminate|].
  split; [exact Hstats|exact Hweekly].
Defined.

Lemma shape_daily_zero (stats : option DailyStats) :
  totalUsage (shape_daily stats) = 0 -> shape_daily stats = zero_stats.
Proof.
  unfold shape_daily. destruct stats as [s|]; [|reflexivity].
  destruct (totalUsage s =? 0) eqn:E; [reflexivity|].
  intros Hz. rewrite Hz in E. discriminate.
Qed.

(** X9: a daily statistics body never shows a total of 0 next to left-over
    entries: whatever the engine answered, a body with [totalUsage] 0 is
    the zero-valued structure, and a body that is not has the engine's own
    answer with a total other than 0. *)
Theorem daily_body_zero_or_engine `{Host} {W M : Type} (env : Env)
    (q : StatsQuery W M) (now : Z) (deviceId : string) (date_q : option string)
    (s : DailyStats) :
  body (fst (get_stats env q now deviceId date_q)) = Payload s ->
  (totalUsage s = 0 -> s = zero_stats)
  /\ (s <> zero_stats ->
      totalUsage s <> 0
      /\ exists date,
           resolve_date now date_q = Some date
           /\ snd (daily_query q deviceId date) = Returned (Some s)).
Proof.
  unfold get_stats.
  destruct (isSummaryAllowed env deviceId); simpl; [|discriminate].
  destruct (resolve_date now date_q) as [date|]; simpl; [|discriminate].
  destruct (daily_query q deviceId date) as [call [stats|msg]] eqn:Hq; simpl;
    [|discriminate].
  intros [= <-]. split; [apply shape_daily_zero|].
  intros Hnz. unfold shape_daily in *.
  destruct stats as [s'|]; [|contradiction].
  destruct (totalUsage s' =? 0) eqn:E; [contradiction|].
  split; [apply Z.eqb_neq, E|]. exists date. rewrite Hq. auto.
Qed.

Lemma daily_body_zero_or_engine_witness :
  stats_of 90 "mail" 9 <> zero_stats
  /\ totalUsage (stats_of 90 "mail" 9) <> 0
  /\ exists date,
       resolve_date 5000 (Some "1970-01-01") = Some date
       /\ snd (daily_query engine "phone" date)
          = Returned (Some (stats_of 90 "mail" 9)).
Proof.
  assert (Hne : stats_of 90 "mail" 9 <> zero_stats)
    by (intros E; apply (f_equal totalUsage) in E; discriminate).
  assert (Hbody : body (fst (get_stats env_default engine 5000 "phone"
                               (Some "1970-01-01")))
                  = Payload (stats_of 90 "mail" 9)) by reflexivity.
  split; [exact Hne|].
  apply (proj2 (daily_body_zero_or_engine env_default engine 5000 "phone"
                  (Some "1970-01-01") (stats_of 90 "mail" 9) Hbody)).
  exact Hne.
Defined.

(** ** [GET /recentall] *)

Lemma assign_lookup {V : Type} (obj : gmap string V) (key : string) (value : V)
    (d : string) :
  d <> "__proto__" ->
  assign obj key value !! d = if decide (key = d) then Some value else obj !! d.
Proof.
  intros Hd. unfold assign. destruct (String.eqb key "__proto__") eqn:E.
  - apply String.eqb_eq in E. subst key.
    destruct (decide ("__proto__" = d)); [congruence|reflexivity].
  - destruct (decide (key = d)) as [->|Hne].
    + apply lookup_insert_eq.
    + apply lookup_insert_ne, Hne.
Qed.

Lemma assign_proto {V : Type} (obj : gmap string V) (key : string) (value : V) :
  obj !! "__proto__" = None -> assign obj key value !! "__proto__" = None.
Proof.
  intros Hobj. unfold assign. destruct (String.eqb key "__proto__") eqn:E;
    [exact Hobj|].
  apply String.eqb_neq in E. rewrite lookup_insert_ne by exact E. exact Hobj.
Qed.

Lemma string_keys_lookup {A : Type} (entries : list (string * A)) (d : string) :
  (list_to_map (prod_map JStr id <$> entries) : gmap JsVal A) !! JStr d
  = (list_to_map entries : gmap string A) !! d.
Proof.
  induction entries as [|[k b] rest IH]; [reflexivity|].
  cbn [fmap list_fmap prod_map fst snd id]. rewrite !list_to_map_cons.
  destruct (decide (k = d)) as [->|Hne].
  - rewrite !lookup_insert_eq. reflexivity.
  - rewrite !lookup_insert_ne by congruence. exact IH.
Qed.

Lemma string_keys_NoDup {A : Type} (entries : list (string * A)) :
  NoDup (fst <$> entries) -> NoDup (fst <$> (prod_map JStr id <$> entries)).
Proof.
  intros Hnd. rewrite <- list_fmap_compose.
  assert (E : fst ∘ prod_map JStr (@id A) = JStr ∘ fst)
    by reflexivity.
  rewrite E, list_fmap_compose. apply NoDup_fmap_2; [|exact Hnd].
  intros x y [= ->]. reflexivity.
Qed.

Lemma fill_lookup (entries : list (string * list SwitchEntry))
    (obj : gmap string (list RecordView)) (d : string) :
  d <> "__proto__" ->
  NoDup (fst <$> entries) ->
  fill obj entries !! d
  = match (list_to_map entries : gmap string (list SwitchEntry)) !! d with
    | Some switches => Some (map view switches)
    | None => obj !! d
    end.
Proof.
  intros Hd. revert obj. induction entries as [|[k b] rest IH]; intros obj Hnd;
    [reflexivity|].
  cbn [fmap list_fmap fst] in Hnd. apply list.NoDup_cons in Hnd as [Hk Hrest].
  unfold fill. cbn [foldl fst snd]. fold (fill (assign obj k (map view b)) rest).
  rewrite (IH _ Hrest), list_to_map_cons, (assign_lookup _ _ _ _ Hd).
  destruct (decide (k = d)) as [->|Hne].
  - rewrite lookup_insert_eq.
    rewrite (not_elem_of_list_to_map_1 rest d Hk). reflexivity.
  - rewrite lookup_insert_ne by exact Hne. reflexivity.
Qed.

Lemma fill_proto (entries : list (string * list SwitchEntry))
    (obj : gmap string (list RecordView)) :
  obj !! "__proto__" = None -> fill obj entries !! "__proto__" = None.
Proof.
  revert obj. induction entries as [|[k b] rest IH]; intros obj Hobj; [exact Hobj|].
  unfold fill. cbn [foldl fst snd]. apply IH, assign_proto, Hobj.
Qed.

(** The own properties number as many as the keys, "__proto__" apart. *)
Lemma fill_size (entries : list (string * list SwitchEntry))
    (obj : gmap string (list RecordView)) :
  NoDup (fst <$> entries) ->
  (forall k, k ∈ fst <$> entries -> obj !! k = None) ->
  (size (fill obj entries)
   + (if bool_decide ("__proto__" ∈ fst <$> entries) then 1 else 0)
   = size obj + length entries)%nat.
Proof.
  revert obj. induction entries as [|[k b] rest IH]; intros obj Hnd Hfresh.
  - rewrite bool_decide_eq_false_2 by (intros Hin; inversion Hin).
    simpl. lia.
  - cbn [fmap list_fmap fst] in Hnd, Hfresh |- *.
    apply list.NoDup_cons in Hnd as [Hk Hrest].
    unfold fill. cbn [foldl fst snd length].
    fold (fill (assign obj k (map view b)) rest).
    unfold assign. destruct (String.eqb k "__proto__") eqn:E.
    + apply String.eqb_eq in E. subst k.
      rewrite bool_decide_eq_true_2 by left.
      specialize (IH obj Hrest).
      rewrite bool_decide_eq_false_2 in IH by exact Hk.
      rewrite <- plus_n_O in IH. rewrite IH; [lia|].
      intros k' Hk'. apply Hfresh. right. exact Hk'.
    + apply String.eqb_neq in E.
      rewrite (bool_decide_ext ("__proto__" ∈ k :: (fst <$> rest))
                 ("__proto__" ∈ fst <$> rest)).
      2:{ rewrite elem_of_cons. split; [intros [Hp|Hp]; [congruence|exact Hp]|auto]. }
      rewrite (IH (<[k := map view b]> obj) Hrest).
      * rewrite map_size_insert_None by (apply Hfresh; left). lia.
      * intros k' Hk'. rewrite lookup_insert_ne by (intros ->; contradiction).
        apply Hfresh. right. exact Hk'.
Qed.

(** X19: [GET /recentall], for a recorder whose device identifiers are
    strings, answers 200 with the number of devices that have a buffer
    for count.  For every identifier other than "__proto__" the data has
    a field exactly when the recorder holds a buffer, with the same
    entries that [GET /recent/:deviceId] shows; the data never has a field
    "__proto__", so the count is one more than the number of fields when a
    device of that name is held. *)
Theorem recentall_fields (st : State)
    (entries : list (string * list SwitchEntry)) :
  held_in st entries ->
  exists payload,
    get_recentall entries = {| status := 200; body := Payload payload |}
    /\ count payload = size (recentAppSwitches st)
    /\ (forall d, d <> "__proto__" ->
          data payload !! d = map view <$> (recentAppSwitches st !! JStr d))
    /\ (forall d records, data payload !! d = Some records ->
          get_recent st d
          = {| status := 200;
               body := Payload {| data := records; count := length records |} |})
    /\ data payload !! "__proto__" = None
    /\ (size (data payload)
        + (if bool_decide (is_Some (recentAppSwitches st !! JStr "__proto__"))
           then 1 else 0)
        = count payload)%nat.
Proof.
  intros [Hnd Hheld].
  assert (Hlook : forall d, d <> "__proto__" ->
            fill ∅ entries !! d = map view <$> (recentAppSwitches st !! JStr d)).
  { intros d Hd. rewrite (fill_lookup entries ∅ d Hd Hnd), Hheld,
      string_keys_lookup.
    destruct (list_to_map entries !! d); reflexivity. }
  eexists. split; [reflexivity|]. cbn [data count].
  fold (fill ∅ entries).
  split; [|split; [exact Hlook|split; [|split]]].
  - rewrite Hheld, map_size_list_to_map by (apply string_keys_NoDup, Hnd).
    rewrite length_fmap. reflexivity.
  - intros d records Hd.
    destruct (decide (d = "__proto__")) as [->|Hne].
    { rewrite fill_proto in Hd by reflexivity. discriminate. }
    rewrite (Hlook d Hne) in Hd. unfold get_recent, ok.
    destruct (recentAppSwitches st !! JStr d) as [switches|]; [|discriminate].
    injection Hd as <-. reflexivity.
  - apply fill_proto. reflexivity.
  - pose proof (fill_size entries ∅ Hnd (fun k _ => lookup_empty k)) as Hsize.
    rewrite map_size_empty in Hsize. simpl in Hsize.
    rewrite <- Hsize. f_equal.
    rewrite Hheld, string_keys_lookup.
    rewrite (bool_decide_ext (is_Some (list_to_map entries !! "__proto__"))
               ("__proto__" ∈ fst <$> entries)); [reflexivity|].
    rewrite <- not_eq_None_Some.
    pose proof (not_elem_of_list_to_map (M:=gmap string) entries "__proto__") as Hiff.
    split.
    + intros Hs. apply dec_stable. intros Hno. apply Hs, Hiff, Hno.
    + intros Hin Hnone. apply Hiff in Hnone. contradiction.
Qed.

Lemma recentall_fields_witness :
  exists payload,
    get_recentall proto_entries = {| status := 200; body := Payload payload |}
    /\ count payload = 2%nat
    /\ size (data payload) = 1%nat
    /\ data payload !! "__proto__" = None.
Proof.
  assert (Hheld : held_in proto_state proto_entries).
  { split; [|vm_compute; reflexivity].
    apply list.NoDup_cons. split.
    - intros Hin. apply list_elem_of_singleton in Hin. discriminate.
    - apply list.NoDup_singleton. }
  destruct (recentall_fields proto_state proto_entries Hheld)
    as (payload & Hbody & Hcount & _ & _ & Hproto & Hsize).
  exists payload. split; [exact Hbody|].
  assert (Hc : count payload = 2%nat) by (rewrite Hcount; reflexivity).
  split; [exact Hc|]. split; [|exact Hproto].
  rewrite Hc in Hsize.
  rewrite bool_decide_eq_true_2 in Hsize by (vm_compute; eauto). lia.
Defined.

(** ** [getClientIp] *)

Lemma before_comma_no_comma (s : string) : occurs "," (before_comma s) = false.
Proof.
  induction s as [|c r IH]; [reflexivity|]. cbn [before_comma].
  destruct (Ascii.eqb c ",") eqn:E; [reflexivity|]. cbn [occurs].
  rewrite IH, orb_false_r. rewrite Ascii.eqb_sym. exact E.
Qed.

Lemma occurs_app (c : ascii) (a b : string) :
  occurs c (String.append a b) = occurs c a || occurs c b.
Proof.
  induction a as [|d r IH]; [reflexivity|].
  change (String.append (String d r) b) with (String d (String.append r b)).
  cbn [occurs]. rewrite IH, orb_assoc. reflexivity.
Qed.

Lemma occurs_trimStart (c : ascii) (s : string) :
  occurs c s = false -> occurs c (trimStart s) = false.
Proof.
  induction s as [s E|s r E IH] using strip_space_ind; intros Hs;
    rewrite trimStart_step, E; [exact Hs|].
  apply IH. destruct (strip_space_lower s r E) as (p & -> & _).
  rewrite occurs_app in Hs. apply orb_false_iff in Hs as [_ Hr]. exact Hr.
Qed.

Lemma occurs_trimEnd (c : ascii) (s : string) :
  occurs c s = false -> occurs c (trimEnd s) = false.
Proof.
  induction s as [|d r IH]; [reflexivity|]. rewrite trimEnd_unfold.
  cbn [occurs]. intros E. apply orb_false_iff in E as [Hd Hr].
  destruct (all_space (String d r)); [reflexivity|].
  cbn [occurs]. rewrite Hd. exact (IH Hr).
Qed.

(** X10: when the [x-forwarded-for] header is a text that is not empty,
    [getClientIp] answers with its first comma-separated entry, trimmed,
    whatever the addresses of the connection are: a text without a comma,
    of which no white space can be split off at the start or at the end. *)
Theorem client_ip_from_header (req : IpRequest) (value : string) :
  forwarded req = OneHeader value ->
  value <> "" ->
  exists ip,
    getClientIp req = Returned (JStr ip)
    /\ ip = trim (before_comma value)
    /\ occurs "," ip = false
    /\ (forall w r, ip = String.append w r -> all_space w = true -> w = "")
    /\ (forall p w, ip = String.append p w -> all_space w = true -> w = "").
Proof.
  intros Hf Hne. exists (trim (before_comma value)).
  split; [|split; [reflexivity|split]].
  - unfold getClientIp. rewrite Hf.
    destruct (String.eqb value "") eqn:E; [|reflexivity].
    apply String.eqb_eq in E. contradiction.
  - unfold trim. apply occurs_trimEnd, occurs_trimStart, before_comma_no_comma.
  - apply trim_clean.
Qed.

Lemma client_ip_from_header_witness :
  exists ip,
    getClientIp {| forwarded
                     := OneHeader (String "194" (String "160" "203.0.113.7 , 10.0.0.1"));
                   connection_remoteAddress := JStr "10.0.0.1";
                   socket_remoteAddress := JUndefined;
                   req_ip := JUndefined |}
    = Returned (JStr ip)
    /\ ip = "203.0.113.7".
Proof.
  destruct (client_ip_from_header
              {| forwarded
                   := OneHeader (String "194" (String "160" "203.0.113.7 , 10.0.0.1"));
                 connection_remoteAddress := JStr "10.0.0.1";
                 socket_remoteAddress := JUndefined;
                 req_ip := JUndefined |}
              (String "194" (String "160" "203.0.113.7 , 10.0.0.1")) eq_refl)
    as (ip & Hip & Heq & _); [discriminate|].
  exists ip. split; [exact Hip|]. rewrite Heq. reflexivity.
Defined.

(** X11: [getClientIp] throws only when the header is an empty array; with
    no header, or an empty one, it answers with the first of the
    connection's address, the socket's address and [req.ip] that is truthy,
    and with [req.ip] as it is when none is. *)
Theorem client_ip_fallback (req : IpRequest) :
  ((exists message, getClientIp req = Thrown message)
   <-> forwarded req = ManyHeaders [])
  /\ (forwarded req = NoHeader \/ forwarded req = OneHeader "" ->
      exists ip,
        getClientIp req = Returned ip
        /\ (truthy (connection_remoteAddress req) = true ->
            ip = connection_remoteAddress req)
        /\ (truthy (connection_remoteAddress req) = false ->
            truthy (socket_remoteAddress req) = true ->
            ip = socket_remoteAddress req)
        /\ (truthy (connection_remoteAddress req) = false ->
            truthy (socket_remoteAddress req) = false ->
            ip = req_ip req)).
Proof.
  split.
  - unfold getClientIp. destruct (forwarded req) as [|value|[|first rest]].
    + split; [intros [m E]; discriminate|discriminate].
    + split; [|discriminate].
      destruct (String.eqb value ""); intros [m E]; discriminate.
    + split; [reflexivity|]. intros _. eauto.
    + split; [intros [m E]; discriminate|discriminate].
  - intros Hf.
    exists (js_or (connection_remoteAddress req)
              (js_or (socket_remoteAddress req) (req_ip req))).
    split.
    + unfold getClientIp. destruct Hf as [-> | ->]; reflexivity.
    + unfold js_or. repeat split; intros; repeat
        match goal with E : truthy _ = _ |- _ => rewrite E; clear E end;
        reflexivity.
Qed.

Lemma client_ip_fallback_witness :
  exists ip,
    getClientIp {| forwarded := OneHeader "";
                   connection_remoteAddress := JUndefined;
                   socket_remoteAddress := JStr "192.0.2.5";
                   req_ip := JStr "192.0.2.9" |}
    = Returned ip
    /\ ip = JStr "192.0.2.5".
Proof.
  destruct (proj2 (client_ip_fallback
                     {| forwarded := OneHeader "";
                        connection_remoteAddress := JUndefined;
                        socket_remoteAddress := JStr "192.0.2.5";
                        req_ip := JStr "192.0.2.9" |}))
    as (ip & Hip & _ & Hsock & _); [right; reflexivity|].
  exists ip. split; [exact Hip|]. apply Hsock; reflexivity.
Defined.

(** ** The heart-rate relay *)

Lemma elem_of_set_add (ws c : Socket) (clients : Clients) :
  ws ∈ set_add c clients <-> ws = c \/ ws ∈ clients.
Proof.
  unfold set_add. case_bool_decide as Hin.
  - split; [auto|]. intros [->|Hws]; assumption.
  - rewrite elem_of_app, list_elem_of_singleton. tauto.
Qed.

Lemma elem_of_set_delete (ws c : Socket) (clients : Clients) :
  ws ∈ set_delete c clients <-> ws <> c /\ ws ∈ clients.
Proof. unfold set_delete. rewrite list_elem_of_filter. reflexivity. Qed.

Lemma set_add_NoDup (c : Socket) (clients : Clients) :
  NoDup clients -> NoDup (set_add c clients).
Proof.
  intros Hnd. unfold set_add. case_bool_decide as Hin; [exact Hnd|].
  apply list.NoDup_app. split; [exact Hnd|]. split.
  - intros x Hx Hx'. apply list_elem_of_singleton in Hx'. subst x. contradiction.
  - apply list.NoDup_singleton.
Qed.

Lemma on_event_NoDup (clients : Clients) (ev : WsEvent) :
  NoDup clients -> NoDup (on_event clients ev).
Proof.
  intros Hnd. destruct ev as [ws url|ws]; simpl.
  - destruct (String.eqb url "/ws/heart-rate"); [apply set_add_NoDup|]; exact Hnd.
  - apply list.NoDup_filter, Hnd.
Qed.

Lemma after_events_snoc (evs : list WsEvent) (ev : WsEvent) :
  after_events (evs ++ [ev]) = on_event (after_events evs) ev.
Proof. unfold after_events. rewrite foldl_app. reflexivity. Qed.

(** [hrClients] never holds a socket twice. *)
Lemma after_events_NoDup (evs : list WsEvent) : NoDup (after_events evs).
Proof.
  induction evs as [|ev evs IH] using rev_ind; [apply NoDup_nil_2|].
  rewrite after_events_snoc. apply on_event_NoDup, IH.
Qed.

Lemma snoc_split {A : Type} (l before after : list A) (x y : A) :
  l ++ [y] = before ++ x :: after ->
  (after = [] /\ l = before /\ y = x)
  \/ exists after', after = after' ++ [y] /\ l = before ++ x :: after'.
Proof.
  intros E. destruct after as [|a after' _] using rev_ind.
  - left. apply app_inj_tail in E as [-> ->]. auto.
  - right. exists after'.
    change (before ++ x :: after' ++ [a]) with (before ++ (x :: after') ++ [a]) in E.
    rewrite app_assoc in E. apply app_inj_tail in E as [-> ->]. auto.
Qed.

(** X12: after any sequence of connections and closings, the sockets the
    relay holds are exactly those that connected on "/ws/heart-rate" and
    have not closed since; a socket that connected on any other path is
    never among them. *)
Theorem heart_rate_clients_membership (evs : list WsEvent) (ws : Socket) :
  ws ∈ after_events evs
  <-> exists before after,
        evs = before ++ Connection ws "/ws/heart-rate" :: after
        /\ Close ws ∉ after.
Proof.
  induction evs as [|ev evs IH] using rev_ind.
  - split; [intros Hin; inversion Hin|].
    intros (before & after & E & _). destruct before; discriminate.
  - rewrite after_events_snoc. split.
    + intros Hin.
      assert (Hkeep : ws ∈ after_events evs -> Close ws <> ev ->
                exists before after,
                  evs ++ [ev] = before ++ Connection ws "/ws/heart-rate" :: after
                  /\ Close ws ∉ after).
      { intros Hm Hne. apply IH in Hm as (before & after & -> & Hno).
        exists before, (after ++ [ev]). split.
        - rewrite <- app_assoc. reflexivity.
        - rewrite elem_of_app, list_elem_of_singleton. tauto. }
      destruct ev as [c url|c]; simpl in Hin.
      * destruct (String.eqb url "/ws/heart-rate") eqn:U.
        -- apply String.eqb_eq in U. subst url.
           apply elem_of_set_add in Hin as [->|Hm].
           ++ exists evs, []. split; [reflexivity|]. intros Hc. inversion Hc.
           ++ apply Hkeep; [exact Hm|discriminate].
        -- apply Hkeep; [exact Hin|discriminate].
      * apply elem_of_set_delete in Hin as [Hne Hm].
        apply Hkeep; [exact Hm|congruence].
    + intros (before & after & E & Hno).
      apply snoc_split in E as [(-> & -> & ->)|(after' & -> & ->)].
      * simpl. apply elem_of_set_add. auto.
      * assert (Hm : ws ∈ after_events
                         (before ++ Connection ws "/ws/heart-rate" :: after')).
        { apply IH. exists before, after'. split; [reflexivity|].
          intros Hc. apply Hno. apply elem_of_app. auto. }
        assert (Hev : Close ws <> ev).
        { intros <-. apply Hno. apply elem_of_app. right.
          apply list_elem_of_singleton. reflexivity. }
        destruct ev as [c url|c]; simpl.
        -- destruct (String.eqb url "/ws/heart-rate"); [|exact Hm].
           apply elem_of_set_add. auto.
        -- apply elem_of_set_delete. split; [congruence|exact Hm].
Qed.

Lemma heart_rate_clients_membership_witness :
  1%nat ∈ after_events [Connection 1 "/ws/heart-rate"; Connection 2 "/ws/other";
                        Close 3]
  /\ ~ 2%nat ∈ after_events [Connection 1 "/ws/heart-rate"; Connection 2 "/ws/other";
                            Close 3].
Proof.
  split.
  - apply (proj2 (heart_rate_clients_membership
                    [Connection 1 "/ws/heart-rate"; Connection 2 "/ws/other";
                     Close 3] 1%nat)).
    exists [], [Connection 2 "/ws/other"; Close 3]. split; [reflexivity|].
    intros Hin. repeat (apply elem_of_cons in Hin as [Hin|Hin]; [discriminate|]).
    inversion Hin.
  - intros Hin. vm_compute in Hin.
    apply elem_of_cons in Hin as [Hin|Hin]; [discriminate|]. inversion Hin.
Defined.

(** How many of the sends go to a socket. *)
Lemma sends_to_count (readyState : Socket -> nat) (data : HeartRateData)
    (clients : Clients) (ws : Socket) :
  NoDup clients ->
  length (filter (fun send => fst send = ws)
            (broadcastHeartRate readyState data clients))
  = if bool_decide (ws ∈ clients /\ readyState ws = OPEN) then 1%nat else 0%nat.
Proof.
  unfold broadcastHeartRate. induction clients as [|c rest IH]; intros Hnd.
  - rewrite bool_decide_eq_false_2; [reflexivity|].
    intros [Hin _]. inversion Hin.
  - apply list.NoDup_cons in Hnd as [Hc Hrest]. specialize (IH Hrest).
    rewrite filter_cons. destruct (decide (readyState c = OPEN)) as [Ho|Hno].
    + cbn [map]. rewrite filter_cons. cbn [fst].
      destruct (decide (c = ws)) as [->|Hne].
      * cbn [length]. rewrite IH.
        rewrite (bool_decide_eq_false_2 (ws ∈ rest /\ _)) by tauto.
        rewrite bool_decide_eq_true_2; [reflexivity|].
        split; [left|exact Ho].
      * rewrite IH.
        rewrite (bool_decide_ext (ws ∈ rest /\ readyState ws = OPEN)
                   (ws ∈ c :: rest /\ readyState ws = OPEN)); [reflexivity|].
        rewrite elem_of_cons.
        split; intros [Hin Hs]; split; auto.
        destruct Hin as [->|Hin]; [congruence|exact Hin].
    + rewrite IH.
      rewrite (bool_decide_ext (ws ∈ rest /\ readyState ws = OPEN)
                 (ws ∈ c :: rest /\ readyState ws = OPEN)); [reflexivity|].
      rewrite elem_of_cons.
      split; intros [Hin Hs]; split; auto.
      destruct Hin as [->|Hin]; [contradiction|exact Hin].
Qed.

(** X13: [broadcastHeartRate], called with the sockets that the
    connections and closings so far have left, sends exactly once to every
    held socket whose state is OPEN and to no other, and each copy carries
    the data it was given. *)
Theorem heart_rate_delivery (readyState : Socket -> nat) (evs : list WsEvent)
    (data : HeartRateData) :
  let sends := broadcastHeartRate readyState data (after_events evs) in
  (forall ws,
     length (filter (fun send => fst send = ws) sends)
     = if bool_decide (ws ∈ after_events evs /\ readyState ws = OPEN)
       then 1%nat else 0%nat)
  /\ (forall send, send ∈ sends -> snd send = data).
Proof.
  intros sends. subst sends. split.
  - intros ws. apply sends_to_count, after_events_NoDup.
  - intros send Hin. unfold broadcastHeartRate in Hin.
    apply list_elem_of_fmap in Hin as (c & -> & _). reflexivity.
Qed.

Lemma heart_rate_delivery_witness :
  length (filter (fun send => fst send = 1%nat)
            (broadcastHeartRate
               (fun ws => if (ws =? 3)%nat then 3%nat else OPEN)
               {| hr_deviceId := JStr "watch"; hr_heartRate := JNum 72;
                  hr_timestamp := JNum 5000 |}
               (after_events [Connection 1 "/ws/heart-rate";
                              Connection 3 "/ws/heart-rate"]))) = 1%nat
  /\ length (filter (fun send => fst send = 3%nat)
              (broadcastHeartRate
                 (fun ws => if (ws =? 3)%nat then 3%nat else OPEN)
                 {| hr_deviceId := JStr "watch"; hr_heartRate := JNum 72;
                    hr_timestamp := JNum 5000 |}
                 (after_events [Connection 1 "/ws/heart-rate";
                                Connection 3 "/ws/heart-rate"]))) = 0%nat
  /\ snd (1%nat, {| hr_deviceId := JStr "watch"; hr_heartRate := JNum 72;
                    hr_timestamp := JNum 5000 |})
     = {| hr_deviceId := JStr "watch"; hr_heartRate := JNum 72;
          hr_timestamp := JNum 5000 |}.
Proof.
  pose proof (heart_rate_delivery (fun ws => if (ws =? 3)%nat then 3%nat else OPEN)
                [Connection 1 "/ws/heart-rate"; Connection 3 "/ws/heart-rate"]
                {| hr_deviceId := JStr "watch"; hr_heartRate := JNum 72;
                   hr_timestamp := JNum 5000 |}) as [Hcount Hdata].
  split; [rewrite (Hcount 1%nat); reflexivity|].
  split; [rewrite (Hcount 3%nat); reflexivity|].
  apply Hdata. vm_compute. left.
Defined.

(** X18: [POST /heart-rate] relays nothing.  [src/index.js] exports
    [broadcastHeartRate] only after it has loaded the routes, so in the
    routes the name is undefined, while the four names the routes import
    at their top are exported in time.  A report without a device
    identifier or without a truthy heart rate (0 included) is answered
    400; for any other the handler throws a TypeError before it has
    written a response.  In both cases no socket is sent anything. *)
Theorem heart_rate_route_never_relays (readyState : Socket -> nat)
    (clients : Clients) (now : Z) (b : HeartRateBody) :
  let result := post_heart_rate readyState clients now b in
  ("broadcastHeartRate" ∉ exported_before_routes index_steps)
  /\ (forall name,
        name ∈ ["SECRET"; "statsRecorder"; "statsQuery"; "aiSummary"] ->
        name ∈ exported_before_routes index_steps)
  /\ snd result = []
  /\ (truthy (body_deviceId b) = false \/ truthy (body_heartRate b) = false ->
      fst result = Returned (400, "缺少 deviceId 或 heartRate"))
  /\ (truthy (body_deviceId b) = true -> truthy (body_heartRate b) = true ->
      fst result = Thrown "broadcastHeartRate is not a function").
Proof.
  intros result. subst result.
  assert (Hno : "broadcastHeartRate" ∉ exported_before_routes index_steps).
  { intros Hin. cbn in Hin.
    repeat (apply elem_of_cons in Hin as [Hin|Hin]; [discriminate|]).
    inversion Hin. }
  assert (Himp : imported_broadcastHeartRate = None).
  { unfold imported_broadcastHeartRate.
    rewrite bool_decide_eq_false_2 by exact Hno. reflexivity. }
  split; [exact Hno|]. split.
  { intros name Hin. cbn.
    repeat (apply elem_of_cons in Hin as [->|Hin];
            [repeat first [left|right]|]).
    inversion Hin. }
  unfold post_heart_rate. rewrite Himp.
  destruct (truthy (body_deviceId b)), (truthy (body_heartRate b)); simpl;
    repeat split; try reflexivity; intros; try discriminate;
    repeat match goal with E : _ \/ _ |- _ => destruct E end; discriminate.
Qed.

Lemma heart_rate_route_never_relays_witness :
  fst (post_heart_rate (fun _ => OPEN)
         (after_events [Connection 1 "/ws/heart-rate"]) 5000
         {| body_deviceId := JStr "watch"; body_heartRate := JNum 72;
            body_timestamp := JUndefined |})
  = Thrown "broadcastHeartRate is not a function"
  /\ fst (post_heart_rate (fun _ => OPEN)
            (after_events [Connection 1 "/ws/heart-rate"]) 5000
            {| body_deviceId := JStr "watch"; body_heartRate := JNum 0;
               body_timestamp := JUndefined |})
     = Returned (400, "缺少 deviceId 或 heartRate")
  /\ "statsQuery" ∈ exported_before_routes index_steps.
Proof.
  pose proof (heart_rate_route_never_relays (fun _ => OPEN)
                (after_events [Connection 1 "/ws/heart-rate"]) 5000
                {| body_deviceId := JStr "watch"; body_heartRate := JNum 72;
                   body_timestamp := JUndefined |})
    as (_ & Hnames & _ & _ & Hthrows).
  pose proof (heart_rate_route_never_relays (fun _ => OPEN)
                (after_events [Connection 1 "/ws/heart-rate"]) 5000
                {| body_deviceId := JStr "watch"; body_heartRate := JNum 0;
                   body_timestamp := JUndefined |})
    as (_ & _ & _ & Hbad & _).
  split; [apply Hthrows; reflexivity|].
  split; [apply Hbad; right; reflexivity|].
  apply Hnames. right. right. left.
Defined.

(** ** The summary routes *)

(** X14: [GET /ai/trigger/:deviceId] calls [triggerSummary] exactly when
    the [secret] parameter is the configured secret, and then once, for the
    requested device and with the [date] parameter, or no date when that is
    missing or empty; any other request, one without a secret included, is
    answered 401 and calls nothing. *)
Theorem trigger_needs_secret {V T : Type} (env : Env) (aiSummary : AISummary V T)
    (deviceId : string) (secret_q date_q : option string) :
  let result := get_ai_trigger env aiSummary deviceId secret_q date_q in
  (snd result <> [] <-> secret_q = Some (SECRET env))
  /\ (secret_q = Some (SECRET env) ->
      snd result = [(deviceId, app_filter date_q)]
      /\ fst (fst result) <> 401)
  /\ (secret_q <> Some (SECRET env) ->
      fst (fst result) = 401 /\ snd result = []).
Proof.
  intros result. subst result. unfold get_ai_trigger.
  destruct (decide (secret_q = Some (SECRET env))) as [->|Hne].
  - simpl. rewrite String.eqb_refl.
    pose proof (SECRET_not_empty env) as Hs. apply String.eqb_neq in Hs.
    rewrite Hs. simpl. fold (app_filter date_q).
    destruct (triggerSummary aiSummary deviceId (app_filter date_q));
      repeat split; intros; try discriminate; try congruence.
  - assert (Hrej : negb (truthy (env_val secret_q))
                   || negb (strict_eq_str (env_val secret_q) (SECRET env)) = true).
    { destruct secret_q as [s|]; simpl; [|reflexivity].
      apply orb_true_iff. right. apply negb_true_iff. apply String.eqb_neq.
      congruence. }
    rewrite Hrej. simpl. repeat split; intros; try congruence.
Qed.

Lemma trigger_needs_secret_witness :
  snd (get_ai_trigger env_default sample_ai "phone" (Some "default-secret-key")
         (Some ""))
  = [("phone", None)]
  /\ snd (get_ai_trigger env_default sample_ai "phone" None (Some "1970-01-01")) = [].
Proof.
  split.
  - apply (proj1 (proj2 (trigger_needs_secret env_default sample_ai "phone"
                           (Some "default-secret-key") (Some "")))).
    reflexivity.
  - apply (proj2 (proj2 (trigger_needs_secret env_default sample_ai "phone"
                           None (Some "1970-01-01")))).
    discriminate.
Defined.

(** X15: [GET /ai/summary/:deviceId] answers 404 when there is no summary
    and otherwise 200 with every field of the summary; [success] and
    [deviceId] are the route's own only as long as the summary has no field
    of that name, and the body has no other field. *)
Theorem summary_fields_win {V T : Type} (aiSummary : AISummary V T)
    (deviceId : string) :
  (getRecentSummary aiSummary deviceId = Returned None ->
     fst (get_ai_summary aiSummary deviceId) = 404)
  /\ (forall summary,
        getRecentSummary aiSummary deviceId = Returned (Some summary) ->
        exists obj,
          get_ai_summary aiSummary deviceId = (200, inr obj)
          /\ (forall k v, summary !! k = Some v -> obj !! k = Some (inr v))
          /\ (summary !! "deviceId" = None ->
              obj !! "deviceId" = Some (inl (JStr deviceId)))
          /\ (summary !! "success" = None ->
              obj !! "success" = Some (inl (JBool true)))
          /\ (forall k, k <> "deviceId" -> k <> "success" ->
                summary !! k = None -> obj !! k = None)).
Proof.
  split.
  - intros E. unfold get_ai_summary. rewrite E. reflexivity.
  - intros summary E. exists (spread_summary deviceId summary).
    split; [unfold get_ai_summary; rewrite E; reflexivity|].
    unfold spread_summary. repeat split.
    + intros k v Hk. apply lookup_union_Some_l. rewrite lookup_fmap, Hk. reflexivity.
    + intros Hk. rewrite lookup_union_r by (rewrite lookup_fmap, Hk; reflexivity).
      apply lookup_insert_eq.
    + intros Hk. rewrite lookup_union_r by (rewrite lookup_fmap, Hk; reflexivity).
      rewrite lookup_insert_ne by discriminate. apply lookup_singleton_eq.
    + intros k Hd Hs Hk.
      rewrite lookup_union_r by (rewrite lookup_fmap, Hk; reflexivity).
      rewrite lookup_insert_ne by congruence.
      apply lookup_singleton_ne. congruence.
Qed.

Lemma summary_fields_win_witness :
  exists obj,
    get_ai_summary sample_ai "phone" = (200, inr obj)
    /\ obj !! "deviceId" = Some (inr "tablet")
    /\ obj !! "success" = Some (inl (JBool true)).
Proof.
  destruct (proj2 (summary_fields_win sample_ai "phone")
              {[ "deviceId" := "tablet"; "text" := "a quiet day" ]} eq_refl)
    as (obj & Hobj & Hfields & _ & Hsuccess & _).
  exists obj. split; [exact Hobj|]. split.
  - apply Hfields. reflexivity.
  - apply Hsuccess. reflexivity.
Defined.

(** *** The time-zone label of [GET /ai/status] *)

Lemma digit_char_spec (d : Z) :
  0 <= d < 10 ->
  digit_in 10 (digit_char d) = Some d.
Proof.
  intros Hd.
  assert (E : d = 0 \/ d = 1 \/ d = 2 \/ d = 3 \/ d = 4 \/ d = 5 \/ d = 6
              \/ d = 7 \/ d = 8 \/ d = 9) by lia.
  repeat (destruct E as [->|E]; [reflexivity|]). subst d. reflexivity.
Qed.

Lemma all_digits_app (s t : string) :
  all_digits (String.append s t) = all_digits s && all_digits t.
Proof.
  induction s as [|c r IH]; [reflexivity|].
  change (String.append (String c r) t) with (String c (String.append r t)).
  cbn [all_digits]. rewrite IH, andb_assoc. reflexivity.
Qed.

Lemma read_digits_app (s t : string) (a : option Z) :
  all_digits s = true ->
  read_digits 10 a (String.append s t) = read_digits 10 (read_digits 10 a s) t.
Proof.
  revert a. induction s as [|c r IH]; intros a Hs; [reflexivity|].
  change (String.append (String c r) t) with (String c (String.append r t)).
  cbn [all_digits] in Hs. apply andb_true_iff in Hs as [Hc Hr].
  apply bool_decide_eq_true in Hc. destruct Hc as [d Hd].
  cbn [read_digits]. rewrite Hd. apply IH, Hr.
Qed.

Lemma digits_of_acc (fuel : nat) (n : Z) (acc : string) :
  digits_of fuel n acc = String.append (digits_of fuel n EmptyString) acc.
Proof.
  revert n acc. induction fuel as [|f IH]; intros n acc; [reflexivity|].
  cbn [digits_of]. destruct (n <? 10); [reflexivity|].
  rewrite (IH (n / 10) (String (digit_char (n mod 10)) acc)).
  rewrite (IH (n / 10) (String (digit_char (n mod 10)) EmptyString)).
  rewrite append_assoc. reflexivity.
Qed.

(** With fuel enough, the digits written read back as the number. *)
Lemma digits_of_reads_back (fuel : nat) (n : Z) :
  (1 <= fuel)%nat ->
  0 <= n < 2 ^ Z.of_nat fuel ->
  read_digits 10 None (digits_of fuel n EmptyString) = Some n
  /\ all_digits (digits_of fuel n EmptyString) = true.
Proof.
  revert n. induction fuel as [|f IH]; intros n Hf Hn; [lia|].
  cbn [digits_of]. destruct (n <? 10) eqn:E.
  - apply Z.ltb_lt in E.
    assert (Hmod : n mod 10 = n) by (apply Z.mod_small; lia).
    rewrite Hmod. cbn [read_digits all_digits].
    rewrite (digit_char_spec n) by lia. split; [f_equal|].
    rewrite andb_true_r. apply bool_decide_eq_true. eauto.
  - apply Z.ltb_ge in E.
    assert (Hpow : 2 ^ Z.of_nat (S f) = 2 * 2 ^ Z.of_nat f).
    { rewrite Nat2Z.inj_succ, Z.pow_succ_r by lia. reflexivity. }
    assert (Hq : 0 <= n / 10 < 2 ^ Z.of_nat f).
    { split; [apply Z.div_pos; lia|].
      apply Z.div_lt_upper_bound; lia. }
    assert (Hf' : (1 <= f)%nat).
    { destruct f; [|lia]. simpl in Hq. assert (1 <= n / 10)
        by (apply Z.div_le_lower_bound; lia). lia. }
    destruct (IH (n / 10) Hf' Hq) as [Hread Hall].
    rewrite digits_of_acc.
    assert (Hd : 0 <= n mod 10 < 10) by (apply Z.mod_pos_bound; lia).
    split.
    + rewrite (read_digits_app _ _ None Hall), Hread.
      cbn [read_digits]. rewrite (digit_char_spec _ Hd). simpl default.
      f_equal. pose proof (Z.div_mod n 10). lia.
    + rewrite all_digits_app, Hall. cbn [all_digits].
      rewrite andb_true_r. apply bool_decide_eq_true.
      rewrite (digit_char_spec _ Hd). eauto.
Qed.

Lemma digit_fuel_enough (n : Z) :
  0 <= n -> (1 <= digit_fuel n)%nat /\ n < 2 ^ Z.of_nat (digit_fuel n).
Proof.
  intros Hn. unfold digit_fuel. split; [lia|].
  rewrite Nat2Z.inj_succ, Z2Nat.id by apply Z.log2_nonneg.
  destruct (Z.eq_dec n 0) as [->|Hnz]; [reflexivity|].
  apply Z.log2_spec. lia.
Qed.

Lemma strip_hex_digits (s : string) :
  all_digits s = true -> strip_hex s = (10, s).
Proof.
  destruct s as [|c0 [|c1 r]]; [reflexivity| |].
  - intros _. destruct c0 as [[] [] [] [] [] [] [] []]; reflexivity.
  - cbn [all_digits]. intros Hs.
    apply andb_true_iff in Hs as [_ Hs]. apply andb_true_iff in Hs as [H1 _].
    apply bool_decide_eq_true in H1.
    destruct c0 as [[] [] [] [] [] [] [] []]; try reflexivity;
      destruct c1 as [[] [] [] [] [] [] [] []]; try reflexivity;
      destruct H1 as [d Hd]; vm_compute in Hd; discriminate.
Qed.

Lemma parseInt_signed_digits (sign : ascii) (k : Z) (ds : string) (n : Z) :
  (sign = "+"%char /\ k = 1) \/ (sign = "-"%char /\ k = -1) ->
  all_digits ds = true ->
  read_digits 10 None ds = Some n ->
  parseInt_str (String sign ds) = Some (number_value (k * n)).
Proof.
  intros Hsign Hall Hread. unfold parseInt_str.
  assert (Hstrip : strip_sign (trimStart (String sign ds)) = (k, ds)).
  { rewrite trimStart_step.
    destruct Hsign as [[-> ->]|[-> ->]];
      rewrite strip_space_ascii by (vm_compute; first [lia|reflexivity]);
      reflexivity. }
  rewrite Hstrip, (strip_hex_digits ds Hall), Hread. reflexivity.
Qed.

Lemma number_value_safe (z : Z) : Z.abs z < 2 ^ 53 -> number_value z = Int z.
Proof.
  intros Hz. unfold number_value, round_double.
  destruct (Z.abs z <? 2 ^ 53) eqn:E; [|apply Z.ltb_ge in E; lia].
  f_equal. lia.
Qed.

(** X16: for an offset that is an integer of magnitude below 2^53, the
    time-zone label of [GET /ai/status] is "UTC" followed by a text that
    [parseInt] reads back as the offset: a plus sign and the digits for an
    offset of 0 or more, the number with its own minus sign otherwise. *)
Theorem timezone_label_reads_back (offset : Z) :
  Z.abs offset < 2 ^ 53 ->
  exists text,
    timezone_label (Int offset) = Some (String.append "UTC" text)
    /\ parseInt_str text = Some (Int offset)
    /\ (0 <= offset -> exists ds, text = String "+" ds /\ all_digits ds = true)
    /\ (offset < 0 -> exists ds, text = String "-" ds /\ all_digits ds = true).
Proof.
  intros Hsafe. unfold timezone_label, number_to_string, ge_zero.
  assert (Hb : (Z.abs offset <? 2 ^ 53) = true) by (apply Z.ltb_lt; exact Hsafe).
  rewrite Hb.
  destruct (0 <=? offset) eqn:E.
  - apply Z.leb_le in E.
    assert (En : (offset <? 0) = false) by (apply Z.ltb_ge; exact E).
    rewrite En.
    destruct (digit_fuel_enough offset E) as [Hf Hfb].
    destruct (digits_of_reads_back (digit_fuel offset) offset Hf (conj E Hfb))
      as [Hread Hall].
    eexists. split; [reflexivity|].
    change (String.append "+" ?s) with (String "+" s).
    split; [|split; [eauto|lia]].
    rewrite (parseInt_signed_digits "+" 1 _ offset); auto.
    rewrite number_value_safe by lia. do 2 f_equal. lia.
  - apply Z.leb_gt in E.
    assert (En : (offset <? 0) = true) by (apply Z.ltb_lt; exact E).
    rewrite En.
    assert (Hpos : 0 <= - offset) by lia.
    destruct (digit_fuel_enough (- offset) Hpos) as [Hf Hfb].
    destruct (digits_of_reads_back (digit_fuel (- offset)) (- offset) Hf
                (conj Hpos Hfb)) as [Hread Hall].
    eexists. split; [reflexivity|].
    change (String.append "" ?s) with s.
    split; [|split; [lia|eauto]].
    rewrite (parseInt_signed_digits "-" (-1) _ (- offset)); auto.
    rewrite number_value_safe by lia. do 2 f_equal. lia.
Qed.

Lemma timezone_label_reads_back_witness :
  exists text,
    defaultTimezone (get_ai_status sample_ai) = Some (String.append "UTC" text)
    /\ parseInt_str text = Some (Int 8).
Proof.
  destruct (timezone_label_reads_back 8) as (text & Hlabel & Hread & _);
    [reflexivity|].
  exists text. split; [exact Hlabel|exact Hread].
Defined.
